(** * MEP calculation engine: electrical, plumbing, fire-protection and HVAC
      sizing functions, embedded from the TypeScript sources

    Sources embedded here:
    - [react-app/src/lib/calculations/electrical.ts]
    - the plumbing and fire-protection modules (fixture units, pipe sizing,
      sprinkler, standpipe, pump, hydrant)
    - the HVAC module (heating and cooling load, ventilation, duct size)

    ** The number model

    A JavaScript number is an IEEE-754 binary64 value.  The type [num] below
    keeps every special value of that format apart (NaN, the two infinities
    and the two zeros), with the behaviour ECMAScript gives them in each
    operator and each [Math] function, and takes the finite non-zero values
    to be real numbers with exact arithmetic: rounding to 53 bits, overflow
    and underflow are not modelled.  Decimal literals of the source ([0.8],
    [0.018], ...) therefore denote the decimal numbers themselves.

    What is proved over [num] for every input is worded so that a rounding
    in the last digit does not turn it around: orders are the non-strict
    ones, a rounded result is placed within half a unit of the exact value
    instead of being equated with one side of a tie, and bounds that a
    rounding can reach are closed.  Where the rounding of binary64 decides
    a result, the module [B64] further down evaluates the same function
    over the binary64 numbers of the kernel. *)

From Stdlib Require Import Reals Lra Lia ZArith List String Ascii Bool.
From Stdlib Require Import Permutation Sorted.
From Stdlib Require PrimFloat.
Import ListNotations.
Open Scope string_scope.
Open Scope list_scope.
Open Scope R_scope.

(** ** Decisions on real numbers, as booleans *)

Definition Rltb (x y : R) : bool := if Rlt_dec x y then true else false.
Definition Rleb (x y : R) : bool := if Rle_dec x y then true else false.
Definition Reqb (x y : R) : bool := if Req_dec_T x y then true else false.

(** ** JavaScript numbers *)

Inductive num : Type :=
| Fin (r : R)   (* a finite value; [Fin 0] is the positive zero *)
| NZero         (* the negative zero, -0 *)
| PInf          (* Infinity *)
| NInf          (* -Infinity *)
| NaN.

Coercion Fin : R >-> num.

Declare Scope js_scope.
Delimit Scope js_scope with js.
Bind Scope js_scope with num.

Definition isNaN (a : num) : bool :=
  match a with NaN => true | _ => false end.

Definition isInf (a : num) : bool :=
  match a with PInf | NInf => true | _ => false end.

Definition isZero (a : num) : bool :=
  match a with Fin r => Reqb r 0 | NZero => true | _ => false end.

Definition isNZero (a : num) : bool :=
  match a with NZero => true | _ => false end.

(** The sign bit ([true] for negative); irrelevant for NaN. *)
Definition sgn (a : num) : bool :=
  match a with
  | Fin r => Rltb r 0
  | NZero | NInf => true
  | PInf | NaN => false
  end.

(** The real value of a finite number (both zeros are 0). *)
Definition val (a : num) : R :=
  match a with Fin r => r | _ => 0 end.

Definition zero (s : bool) : num := if s then NZero else Fin 0.
Definition inf (s : bool) : num := if s then NInf else PInf.

Definition finite (a : num) : Prop :=
  match a with Fin _ | NZero => True | _ => False end.

(** *** Arithmetic operators *)

Definition neg (a : num) : num :=
  match a with
  | Fin r => if Reqb r 0 then NZero else Fin (- r)
  | NZero => Fin 0
  | PInf => NInf
  | NInf => PInf
  | NaN => NaN
  end.

Definition add (a b : num) : num :=
  match a, b with
  | NaN, _ | _, NaN => NaN
  | PInf, NInf | NInf, PInf => NaN
  | PInf, _ | _, PInf => PInf
  | NInf, _ | _, NInf => NInf
  | NZero, NZero => NZero
  | _, _ => Fin (val a + val b)
  end.

Definition sub (a b : num) : num := add a (neg b).

Definition mul (a b : num) : num :=
  if isNaN a || isNaN b then NaN
  else if (isInf a && isZero b) || (isZero a && isInf b) then NaN
  else if isInf a || isInf b then inf (xorb (sgn a) (sgn b))
  else if isZero a || isZero b then zero (xorb (sgn a) (sgn b))
  else Fin (val a * val b).

Definition div (a b : num) : num :=
  if isNaN a || isNaN b then NaN
  else if (isInf a && isInf b) || (isZero a && isZero b) then NaN
  else if isInf a || isZero b then inf (xorb (sgn a) (sgn b))
  else if isZero a || isInf b then zero (xorb (sgn a) (sgn b))
  else Fin (val a / val b).

(** *** Relational operators: every comparison with NaN is false, the two
    zeros compare equal *)

Definition le (a b : num) : bool :=
  match a, b with
  | NaN, _ | _, NaN => false
  | NInf, _ | _, PInf => true
  | PInf, _ | _, NInf => false
  | _, _ => Rleb (val a) (val b)
  end.

Definition lt (a b : num) : bool :=
  match a, b with
  | NaN, _ | _, NaN => false
  | NInf, NInf | PInf, PInf => false
  | NInf, _ | _, PInf => true
  | PInf, _ | _, NInf => false
  | _, _ => Rltb (val a) (val b)
  end.

Definition ge (a b : num) : bool := le b a.
Definition gt (a b : num) : bool := lt b a.

(** [a === b] on numbers *)
Definition strictEq (a b : num) : bool := le a b && le b a.

(** ToBoolean: the zeros and NaN are falsy *)
Definition truthy (a : num) : bool := negb (isNaN a || isZero a).

(** [a || d] for a number [a] *)
Definition orDefault (a d : num) : num := if truthy a then a else d.

(** [o || d] where [o] is a number or [undefined] *)
Definition orElse (o : option num) (d : num) : num :=
  match o with
  | Some a => orDefault a d
  | None => d
  end.

(** ToNumber of a value that may be [undefined] *)
Definition toNumber (o : option num) : num :=
  match o with Some a => a | None => NaN end.

Notation "a + b" := (add a b) : js_scope.
Notation "a - b" := (sub a b) : js_scope.
Notation "a * b" := (mul a b) : js_scope.
Notation "a / b" := (div a b) : js_scope.
Notation "a <= b" := (le a b) : js_scope.
Notation "a < b" := (lt a b) : js_scope.
Notation "a >= b" := (ge a b) : js_scope.
Notation "a > b" := (gt a b) : js_scope.
Notation "a === b" := (strictEq a b) (at level 70, no associativity) : js_scope.

(** *** The [Math] object *)

Module Math.

Definition PI : num := Fin PI.

Definition sqrt (a : num) : num :=
  match a with
  | Fin r => if Rltb r 0 then NaN else Fin (sqrt r)
  | NZero => NZero
  | PInf => PInf
  | NInf | NaN => NaN
  end.

(** [Math.pow(a, y)] for an exponent [y] that is finite, positive and not
    an integer: the engine only raises to the literals 0.35, 0.38, 0.45,
    1.85 and 4.87.  A negative base gives NaN, a zero of either sign
    gives +0, and both infinities give +Infinity. *)
Definition pow (a : num) (y : R) : num :=
  match a with
  | Fin r =>
      if Rltb r 0 then NaN
      else if Reqb r 0 then Fin 0
      else Fin (Rpower r y)
  | NZero => Fin 0
  | PInf | NInf => PInf
  | NaN => NaN
  end.

(** [Math.round]: the nearest integer, ties towards +Infinity; a result
    of zero keeps the sign of the argument. *)
Definition round (a : num) : num :=
  match a with
  | Fin r =>
      let z := Zfloor (r + / 2) in
      if Z.eqb z 0 && Rltb r 0 then NZero else Fin (IZR z)
  | _ => a
  end.

Definition ceil (a : num) : num :=
  match a with
  | Fin r =>
      let z := Zceil r in
      if Z.eqb z 0 && Rltb r 0 then NZero else Fin (IZR z)
  | _ => a
  end.

Definition abs (a : num) : num :=
  match a with
  | Fin r => Fin (Rabs r)
  | NZero => Fin 0
  | PInf | NInf => PInf
  | NaN => NaN
  end.

(** [Math.max] and [Math.min] of two numbers: NaN if either is NaN, and
    +0 counts as larger than -0. *)
Definition max (a b : num) : num :=
  if isNaN a || isNaN b then NaN
  else if lt a b then b
  else if lt b a then a
  else if isNZero a then b else a.

Definition min (a b : num) : num :=
  if isNaN a || isNaN b then NaN
  else if lt a b then a
  else if lt b a then b
  else if isNZero a then a else b.

End Math.

(** ** Plain objects used as tables

    An object literal is kept as the list of its own properties in the
    order the source writes them.  Property lookup [o[k]] finds an own
    property or gives [undefined] ([None]).  Properties inherited from
    [Object.prototype] are not part of a table: where the parameter type
    of the engine confines a key to the literals of its table they play no
    part, and a statement about a lookup with an arbitrary string leaves
    the inherited names ([inheritedNames] below) out. *)

Section Objects.
Context {V : Type}.

Definition object := list (string * V).

Fixpoint getProp (o : object) (k : string) : option V :=
  match o with
  | [] => None
  | (k', v) :: rest => if String.eqb k' k then Some v else getProp rest k
  end.

Fixpoint setProp (o : object) (k : string) (v : V) : object :=
  match o with
  | [] => [(k, v)]
  | (k', v') :: rest =>
      if String.eqb k' k then (k', v) :: rest
      else (k', v') :: setProp rest k v
  end.
End Objects.
Arguments object V : clear implicits.

(** *** Enumeration order of own properties

    [Object.entries] lists the own string-keyed properties in the order of
    OrdinaryOwnPropertyKeys: first the keys that are array indices (the
    canonical decimal form of an integer below 2^32 - 1) in ascending
    numeric order, then every other key in creation order. *)

Definition digitValue (c : ascii) : option N :=
  let n := N_of_ascii c in
  if (48 <=? n)%N && (n <=? 57)%N then Some (n - 48)%N else None.

Fixpoint digitsValue (s : string) (acc : N) : option N :=
  match s with
  | EmptyString => Some acc
  | String c rest =>
      match digitValue c with
      | Some d => digitsValue rest (acc * 10 + d)%N
      | None => None
      end
  end.

Definition arrayIndex (k : string) : option N :=
  match k with
  | EmptyString => None
  | String c rest =>
      if Ascii.eqb c "0"%char then
        match rest with EmptyString => Some 0%N | _ => None end
      else
        match digitsValue k 0 with
        | Some n => if (n <? 2 ^ 32 - 1)%N then Some n else None
        | None => None
        end
  end.

Section Entries.
Context {V : Type}.

(** Stable insertion of an indexed entry into a list sorted by index. *)
Fixpoint insertIndexed (e : N * (string * V)) (l : list (N * (string * V)))
  : list (N * (string * V)) :=
  match l with
  | [] => [e]
  | e' :: rest =>
      if (fst e <? fst e')%N then e :: l else e' :: insertIndexed e rest
  end.

Fixpoint indexedEntries (o : object V) : list (N * (string * V)) :=
  match o with
  | [] => []
  | (k, v) :: rest =>
      match arrayIndex k with
      | Some n => insertIndexed (n, (k, v)) (indexedEntries rest)
      | None => indexedEntries rest
      end
  end.

Fixpoint namedEntries (o : object V) : list (string * V) :=
  match o with
  | [] => []
  | (k, v) :: rest =>
      match arrayIndex k with
      | Some _ => namedEntries rest
      | None => (k, v) :: namedEntries rest
      end
  end.

Definition entries (o : object V) : list (string * V) :=
  map snd (indexedEntries o) ++ namedEntries o.

(** [Object.fromEntries]: properties are created in list order, a
    repeated key overwrites the value it already has. *)
Definition fromEntries (l : list (string * V)) : object V :=
  fold_left (fun o kv => setProp o (fst kv) (snd kv)) l [].
End Entries.


(** *** Arrays and strings *)

(** [l[i]] for an index [i] inside the array. *)
Definition elemAt (l : list num) (i : nat) : num := nth i l NaN.

(** [l.indexOf(x)]: the first position holding a value [=== x], or -1. *)
Fixpoint indexOfFrom (l : list num) (x : num) (i : Z) : Z :=
  match l with
  | [] => (-1)%Z
  | y :: rest => if (y === x)%js then i else indexOfFrom rest x (i + 1)%Z
  end.

Definition indexOf (l : list num) (x : num) : Z := indexOfFrom l x 0%Z.

(** The double-quote character, used as the inch mark in size labels. *)
Definition inchMark : string := String "034"%char EmptyString.

(** The string [n + suffix] for a number [n]: the conversion of a number
    to a string is one-to-one, so the pair determines the string. *)
Record numText : Type := NumText { number : num; suffix : string }.

(** [s.replace(pat, rep)] with a string pattern: the first occurrence. *)
Fixpoint replaceFirst (pat rep s : string) : string :=
  if String.prefix pat s then
    rep ++ substring (String.length pat) (String.length s - String.length pat) s
  else
    match s with
    | EmptyString => EmptyString
    | String c rest => String c (replaceFirst pat rep rest)
    end.

(** [s.toLowerCase()] on the ASCII letters. *)
Definition lowerChar (c : ascii) : ascii :=
  let n := N_of_ascii c in
  if (65 <=? n)%N && (n <=? 90)%N then ascii_of_N (n + 32) else c.

Fixpoint toLowerCase (s : string) : string :=
  match s with
  | EmptyString => EmptyString
  | String c rest => String (lowerChar c) (toLowerCase rest)
  end.

(** An object whose keys are numeric literals, read with a number: the key
    [k] names the property whose literal is [=== k]. *)
Fixpoint getNumProp (o : list (num * num)) (k : num) : option num :=
  match o with
  | [] => None
  | (k', v) :: rest => if (k' === k)%js then Some v else getNumProp rest k
  end.

(** ** electrical.ts *)

Module Electrical.

Definition calculateDemandLoad (connectedLoad demandFactor : num) : num :=
  Math.round (connectedLoad * demandFactor).

(** [powerFactor] defaults to 0.85 at the call. *)
Definition calculateCurrent (load voltage phases powerFactor : num) : num :=
  let current :=
    if (phases === 3)%js then
      (load / (Math.sqrt 3 * voltage * powerFactor))%js
    else
      (load / (voltage * powerFactor))%js in
  (Math.round (current * 10) / 10)%js.

Definition standardSizes : list num :=
  map Fin [15; 20; 25; 30; 35; 40; 45; 50; 60; 70; 80; 90; 100;
           110; 125; 150; 175; 200; 225; 250; 300; 350; 400;
           450; 500; 600; 700; 800; 1000; 1200].

Definition calculateBreakerSize (current : num) (isContinuous : bool) : num :=
  let requiredRating := if isContinuous then (current / 0.8)%js else current in
  let breakerSize :=
    orElse (find (fun size => (size >= requiredRating)%js) standardSizes)
           (elemAt standardSizes (List.length standardSizes - 1)) in
  breakerSize.

Definition copperAmpacity75C : object num :=
  [("14", Fin 20); ("12", Fin 25); ("10", Fin 35); ("8", Fin 50);
   ("6", Fin 65); ("4", Fin 85); ("3", Fin 100); ("2", Fin 115);
   ("1", Fin 130); ("1/0", Fin 150); ("2/0", Fin 175); ("3/0", Fin 200);
   ("4/0", Fin 230); ("250", Fin 255); ("300", Fin 285); ("350", Fin 310);
   ("400", Fin 335); ("500", Fin 380); ("600", Fin 420); ("750", Fin 475);
   ("1000", Fin 545)].

Definition tempFactors : list (num * num) :=
  [(Fin 60, Fin 0.88); (Fin 75, Fin 1.0); (Fin 90, Fin 1.04)].

(** The [for ... of] loop over the entries, leaving at the first fit. *)
Fixpoint firstFit (es : list (string * num)) (tempFactor requiredAmpacity : num)
  : option string :=
  match es with
  | [] => None
  | (size, ampacity) :: rest =>
      if (ampacity * tempFactor >= requiredAmpacity)%js
      then Some (size ++ " AWG")%string
      else firstFit rest tempFactor requiredAmpacity
  end.

Definition calculateWireSize (current : num) (material : string) (tempRating : num)
  : string :=
  let ampacityTable :=
    if String.eqb material "copper" then copperAmpacity75C
    else fromEntries
           (map (fun e => (fst e, Math.round (snd e * 0.62)))
                (entries copperAmpacity75C)) in
  let tempFactor := orElse (getNumProp tempFactors tempRating) 1.0 in
  let requiredAmpacity := (current / 0.8)%js in
  match firstFit (entries ampacityTable) tempFactor requiredAmpacity with
  | Some label => label
  | None => "1000 kcmil"
  end.

Definition resistancePer1000ft : object num :=
  [("14", Fin 3.07); ("12", Fin 1.93); ("10", Fin 1.21); ("8", Fin 0.764);
   ("6", Fin 0.491); ("4", Fin 0.308); ("3", Fin 0.245); ("2", Fin 0.194);
   ("1", Fin 0.154); ("1/0", Fin 0.122); ("2/0", Fin 0.0967);
   ("3/0", Fin 0.0766); ("4/0", Fin 0.0608); ("250", Fin 0.0515);
   ("300", Fin 0.0429); ("350", Fin 0.0367); ("400", Fin 0.0321);
   ("500", Fin 0.0258)].

Definition calculateVoltageDrop
  (current distance voltage : num) (wireSize : string) (phases : num) : num :=
  let sizeKey := replaceFirst " kcmil" "" (replaceFirst " AWG" "" wireSize) in
  let resistance := orElse (getProp resistancePer1000ft sizeKey) 0.1 in
  let voltageDrop :=
    if (phases === 3)%js then
      (Math.sqrt 3 * current * resistance * (distance / 1000))%js
    else
      (2 * current * resistance * (distance / 1000))%js in
  let voltageDropPercent := (voltageDrop / voltage * 100)%js in
  (Math.round (voltageDropPercent * 100) / 100)%js.

(** [impedance] defaults to 5.75 at the call. *)
Definition calculateShortCircuitCurrent (transformerKVA voltage impedance : num)
  : num :=
  let shortCircuitCurrent :=
    (transformerKVA * 1000 / (Math.sqrt 3 * voltage * (impedance / 100)))%js in
  Math.round shortCircuitCurrent.

End Electrical.

(** ** Plumbing module *)

Module Plumbing.

Definition fixtureUnits : object num :=
  [("Water Closet (Tank)", Fin 3);
   ("Water Closet (Flush Valve)", Fin 5);
   ("Urinal (Flush Valve)", Fin 5);
   ("Urinal (Tank)", Fin 3);
   ("Lavatory", Fin 1);
   ("Sink (Kitchen)", Fin 2);
   ("Sink (Service)", Fin 3);
   ("Bathtub", Fin 3);
   ("Shower", Fin 2);
   ("Dishwasher (Domestic)", Fin 2);
   ("Washing Machine", Fin 3);
   ("Drinking Fountain", Fin 0.5);
   ("Hose Bibb", Fin 3)].

(** One turn of the loop body: [total += units * count]. *)
Definition addFixture (total : num) (e : string * num) : num :=
  let units := orElse (getProp fixtureUnits (fst e)) 1 in
  (total + units * snd e)%js.

Definition calculateTotalFixtureUnits (fixtures : object num) : num :=
  fold_left addFixture (entries fixtures) (Fin 0).

Definition fixtureUnitsToGPM (wsfu : num) : num :=
  if (wsfu <= 0)%js then Fin 0
  else if (wsfu <= 10)%js then (Math.sqrt wsfu * 3.5)%js
  else if (wsfu <= 50)%js then (Math.pow wsfu 0.45 * 8)%js
  else if (wsfu <= 200)%js then (Math.pow wsfu 0.38 * 15)%js
  else (Math.pow wsfu 0.35 * 20)%js.

Definition calculateFrictionLoss (flowRate diameter length : num) : num :=
  let C := Fin 140 in
  let headLoss :=
    (4.52 * Math.pow flowRate 1.85
     / (Math.pow C 1.85 * Math.pow diameter 4.87))%js in
  let pressureLoss := (headLoss * 0.433)%js in
  (Math.round (pressureLoss * 100) / 100)%js.

Definition standardSizes : list num :=
  map Fin [0.5; 0.75; 1; 1.25; 1.5; 2; 2.5; 3; 4; 5; 6; 8; 10; 12].

(** [pressureAvailable] defaults to 50 at the call. *)
Definition calculatePipeSize (fixtureUnits length pressureAvailable : num)
  : numText :=
  let flowRate := fixtureUnitsToGPM fixtureUnits in
  let targetVelocity := Fin 5 in
  let flowCFS := (flowRate / (7.48 * 60))%js in
  let requiredArea := (flowCFS / targetVelocity)%js in
  let diameter := (Math.sqrt (4 * requiredArea / Math.PI) * 12)%js in
  let frictionLoss := calculateFrictionLoss flowRate diameter length in
  let pressureLoss := (frictionLoss * length / 100)%js in
  let selectedSize :=
    orElse (find (fun size => (size >= diameter)%js) standardSizes)
           (elemAt standardSizes 0) in
  let selectedSize :=
    if (pressureLoss > pressureAvailable * 0.5)%js then
      let index := indexOf standardSizes selectedSize in
      if (index <? Z.of_nat (List.length standardSizes) - 1)%Z
      then elemAt standardSizes (Z.to_nat (index + 1))
      else selectedSize
    else selectedSize in
  NumText selectedSize inchMark.

(** The two intermediate quantities of [calculatePipeSize] that decide its
    result, named so that statements can refer to them: the diameter
    computed from the flow, and the test that moves the selection one
    size up. *)
Definition requiredDiameter (fixtureUnits : num) : num :=
  let flowRate := fixtureUnitsToGPM fixtureUnits in
  let targetVelocity := Fin 5 in
  let flowCFS := (flowRate / (7.48 * 60))%js in
  let requiredArea := (flowCFS / targetVelocity)%js in
  (Math.sqrt (4 * requiredArea / Math.PI) * 12)%js.

Definition pressureLossTooHigh (fixtureUnits length pressureAvailable : num)
  : bool :=
  let flowRate := fixtureUnitsToGPM fixtureUnits in
  let diameter := requiredDiameter fixtureUnits in
  let frictionLoss := calculateFrictionLoss flowRate diameter length in
  let pressureLoss := (frictionLoss * length / 100)%js in
  (pressureLoss > pressureAvailable * 0.5)%js.

Record DrainCapacity : Type := { size : num; dfu : num }.

Definition drainCapacities : list DrainCapacity :=
  [ {| size := 1.5; dfu := 3 |};
    {| size := 2; dfu := 6 |};
    {| size := 2.5; dfu := 12 |};
    {| size := 3; dfu := 20 |};
    {| size := 4; dfu := 160 |};
    {| size := 5; dfu := 360 |};
    {| size := 6; dfu := 620 |};
    {| size := 8; dfu := 1400 |};
    {| size := 10; dfu := 2500 |};
    {| size := 12; dfu := 3900 |} ].

(** [slope] defaults to 0.25 at the call. *)
Definition calculateDrainPipeSize (drainageFixtureUnits slope : num) : numText :=
  let slopeFactor := Math.sqrt (slope / 0.25) in
  let adjustedDFU := (drainageFixtureUnits / slopeFactor)%js in
  let selectedSize :=
    find (fun cap => (dfu cap >= adjustedDFU)%js) drainCapacities in
  NumText (orElse (option_map size selectedSize) 12) inchMark.

Record WaterHeater : Type := { tankCapacity : num; recoveryRate : num }.

(** [peakDemand] defaults to 0.4 at the call. *)
Definition calculateWaterHeaterSize (fixtureCount peakDemand : num) : WaterHeater :=
  let baseCapacity := (fixtureCount * 12)%js in
  let tankCapacity := (Math.ceil (baseCapacity * peakDemand / 10) * 10)%js in
  let recoveryRate := Math.ceil (baseCapacity * peakDemand * 0.7) in
  {| tankCapacity := tankCapacity; recoveryRate := recoveryRate |}.

End Plumbing.

(** ** Fire-protection module *)

Module FireProtection.

Record Sprinkler : Type := {
  coverage : num;
  density : num;
  headCount : num;
  flowRate : num;
  pressure : num;
  pipeSize : string
}.

Definition densities : object num :=
  [("Light", Fin 0.10); ("Ordinary I", Fin 0.15);
   ("Ordinary II", Fin 0.20); ("Extra", Fin 0.30)].

Definition coverages : object num :=
  [("Light", Fin 225); ("Ordinary I", Fin 130);
   ("Ordinary II", Fin 130); ("Extra", Fin 100)].

Definition basePressure : object num :=
  [("Light", Fin 7); ("Ordinary I", Fin 10);
   ("Ordinary II", Fin 15); ("Extra", Fin 20)].

(** [ceilingHeight] defaults to 12 at the call. *)
Definition calculateSprinklerSystem
  (area : num) (hazardClass : string) (ceilingHeight : num) : Sprinkler :=
  let density := orElse (getProp densities hazardClass) 0.15 in
  let coverage := orElse (getProp coverages hazardClass) 130 in
  let headCount := Math.ceil (area / coverage) in
  let designArea := Math.max 1500 (coverage * 5) in
  let flowRate := Math.round (designArea * density) in
  let elevationPressure := (ceilingHeight * 0.433)%js in
  let totalPressure :=
    Math.round (toNumber (getProp basePressure hazardClass)
                + elevationPressure
                + toNumber (getProp basePressure hazardClass) * 0.3)%js in
  let pipeSize :=
    if (flowRate < 100)%js then ("2" ++ inchMark)%string
    else if (flowRate < 200)%js then ("2.5" ++ inchMark)%string
    else if (flowRate < 400)%js then ("3" ++ inchMark)%string
    else if (flowRate < 750)%js then ("4" ++ inchMark)%string
    else if (flowRate < 1200)%js then ("5" ++ inchMark)%string
    else if (flowRate < 2000)%js then ("6" ++ inchMark)%string
    else ("8" ++ inchMark)%string in
  {| coverage := coverage;
     density := density;
     headCount := headCount;
     flowRate := flowRate;
     pressure := totalPressure;
     pipeSize := pipeSize |}.

Record Standpipe : Type := {
  systemType : string;
  standpipeFlowRate : num;
  standpipePressure : num;
  standpipePipeSize : string;
  hoseConnections : num
}.

Definition calculateStandpipeSystem (floors buildingHeight : num) : Standpipe :=
  let systemType := ("Class I (2.5" ++ inchMark ++ " hose)")%string in
  let flowRate :=
    if (floors <= 3)%js then Fin 500
    else Math.min 1250 (500 + (floors - 3) * 250)%js in
  let staticPressure := Fin 100 in
  let elevationPressure := (buildingHeight * 0.433)%js in
  let frictionLoss := (buildingHeight * 0.1)%js in
  let totalPressure :=
    Math.round (staticPressure + elevationPressure + frictionLoss)%js in
  let pipeSize :=
    if (floors <= 5)%js then ("4" ++ inchMark)%string
    else ("6" ++ inchMark)%string in
  let hoseConnections := floors in
  {| systemType := systemType;
     standpipeFlowRate := flowRate;
     standpipePressure := totalPressure;
     standpipePipeSize := pipeSize;
     hoseConnections := hoseConnections |}.

Record FirePump : Type := {
  pumpCapacity : num;
  pumpPressure : num;
  horsepower : num;
  pumpType : string
}.

Definition calculateFirePump
  (totalFlowRequired staticPressure requiredPressure elevation : num) : FirePump :=
  let pumpCapacity := (Math.ceil (totalFlowRequired * 1.5 / 100) * 100)%js in
  let elevationPressure := (elevation * 0.433)%js in
  let frictionLoss := (elevation * 0.15)%js in
  let pressureDeficit :=
    (requiredPressure - staticPressure + elevationPressure + frictionLoss)%js in
  let pumpPressure := (Math.ceil (Math.max 0 pressureDeficit / 5) * 5)%js in
  let horsepower :=
    (Math.ceil (pumpCapacity * pumpPressure / (1714 * 0.70) / 5) * 5)%js in
  let pumpType :=
    if (pumpCapacity <= 1500)%js && (pumpPressure <= 100)%js
    then "Horizontal Split Case"
    else if (pumpCapacity <= 1000)%js && (pumpPressure > 100)%js
    then "Vertical Turbine"
    else "Horizontal Split Case (Large)" in
  {| pumpCapacity := pumpCapacity;
     pumpPressure := pumpPressure;
     horsepower := horsepower;
     pumpType := pumpType |}.

Definition constructionFactors : object num :=
  [("Type I", Fin 0.6); ("Type II", Fin 0.8); ("Type III", Fin 1.0);
   ("Type IV", Fin 0.8); ("Type V", Fin 1.2)].

Definition calculateFireHydrantFlow (buildingArea : num) (constructionType : string)
  : num :=
  let C := orElse (getProp constructionFactors constructionType) 1.0 in
  let fireFlow := (C * Math.sqrt buildingArea * 18)%js in
  let fireFlow := Math.max 500 (Math.min 12000 fireFlow) in
  (Math.round (fireFlow / 250) * 250)%js.

Record HeadSpacing : Type := { maxSpacing : num; maxDistance : num }.

Definition calculateHeadSpacing (coverage : num) : HeadSpacing :=
  let maxSpacing := Math.sqrt coverage in
  let maxDistance := (maxSpacing / 2)%js in
  {| maxSpacing := (Math.round (maxSpacing * 10) / 10)%js;
     maxDistance := (Math.round (maxDistance * 10) / 10)%js |}.

End FireProtection.

(** ** HVAC module *)

Module HVAC.

(** [outdoorTemp] and [indoorTemp] default to 0 and 70 at the call. *)
Definition calculateHeatingLoad (area occupancy outdoorTemp indoorTemp : num) : num :=
  let envelopeLoss := (area * 30)%js in
  let tempDiff := (indoorTemp - outdoorTemp)%js in
  let tempFactor := (tempDiff / 70)%js in
  let infiltrationLoss := (area * 0.018 * tempDiff)%js in
  let occupancyLoad := (occupancy * Fin (-250))%js in
  let totalLoad :=
    (envelopeLoss * tempFactor + infiltrationLoss + occupancyLoad)%js in
  Math.max 0 (Math.round totalLoad).

(** [outdoorTemp] and [indoorTemp] default to 95 and 75 at the call. *)
Definition calculateCoolingLoad (area occupancy outdoorTemp indoorTemp : num) : num :=
  let solarGain := (area * 40)%js in
  let conductionGain := (area * 15)%js in
  let tempDiff := (outdoorTemp - indoorTemp)%js in
  let tempFactor := (tempDiff / 20)%js in
  let infiltrationGain := (area * 0.018 * tempDiff)%js in
  let lightsLoad := (area * 1.5)%js in
  let equipmentLoad := (area * 1.0)%js in
  let occupancyLoad := (occupancy * 250)%js in
  let occupancyLatent := (occupancy * 200)%js in
  let internalLoad := ((lightsLoad + equipmentLoad) * 3.412)%js in
  let totalLoad :=
    ((solarGain + conductionGain) * tempFactor
     + infiltrationGain + internalLoad
     + occupancyLoad + occupancyLatent)%js in
  Math.round totalLoad.

Record Rates : Type := { perPerson : num; perArea : num }.

Definition office : Rates := {| perPerson := 5; perArea := 0.06 |}.

Definition ventilationRates : object Rates :=
  [("office", office);
   ("classroom", {| perPerson := 10; perArea := 0.12 |});
   ("retail", {| perPerson := 7.5; perArea := 0.12 |});
   ("restaurant", {| perPerson := 7.5; perArea := 0.18 |});
   ("warehouse", {| perPerson := 0; perArea := 0.06 |});
   ("gym", {| perPerson := 20; perArea := 0.06 |})].

(** [spaceType] defaults to ['office'] at the call. *)
Definition calculateVentilationRate (area occupancy : num) (spaceType : string)
  : num :=
  let rates :=
    match getProp ventilationRates (toLowerCase spaceType) with
    | Some r => r
    | None => office
    end in
  let ventilation := (occupancy * perPerson rates + area * perArea rates)%js in
  Math.round ventilation.

Definition calculateEquipmentCapacity (coolingLoad : num) : num :=
  let tons := (coolingLoad / 12000)%js in
  (Math.ceil (tons * 2) / 2)%js.

Definition standardSizes : list num :=
  map Fin [6; 8; 10; 12; 14; 16; 18; 20; 24; 30; 36; 42; 48].

(** [velocity] defaults to 1000 at the call.  [reduce] without an initial
    value starts from the first element. *)
Definition calculateDuctSize (airflow velocity : num) : num :=
  let area := (airflow / velocity)%js in
  let diameter := (Math.sqrt (4 * area / Math.PI) * 12)%js in
  let closestSize :=
    fold_left
      (fun prev curr =>
         if (Math.abs (curr - diameter) < Math.abs (prev - diameter))%js
         then curr else prev)
      (tl standardSizes) (hd NaN standardSizes) in
  closestSize.

End HVAC.

(** ** Notions used in the statements *)

(** *** Size ladders

    A ladder is a list of (threshold, size) pairs; [pick x l d] is the size
    of the first pair whose threshold is [>= x], or [d] when there is
    none.  [rising l d] says that thresholds and sizes do not decrease
    along [l] and that the sizes are positive and at most [d]. *)

Definition pick (x : num) (l : list (R * R)) (d : R) : R :=
  match find (fun p => (Fin (fst p) >= x)%js) l with
  | Some p => snd p
  | None => d
  end.

Fixpoint rising (l : list (R * R)) (d : R) : Prop :=
  match l with
  | [] => True
  | p :: rest =>
      0 < snd p /\ snd p <= d /\
      match rest with
      | [] => True
      | q :: _ => fst p <= fst q /\ snd p <= snd q
      end /\
      rising rest d
  end.

(** The ladders of the engine as lists of reals. *)
Definition breakerLadder : list R :=
  [15; 20; 25; 30; 35; 40; 45; 50; 60; 70; 80; 90; 100;
   110; 125; 150; 175; 200; 225; 250; 300; 350; 400;
   450; 500; 600; 700; 800; 1000; 1200].

Definition pipeLadder : list R :=
  [0.5; 0.75; 1; 1.25; 1.5; 2; 2.5; 3; 4; 5; 6; 8; 10; 12].

(** (capacity in DFU, size in inches) *)
Definition drainLadder : list (R * R) :=
  [(3, 1.5); (6, 2); (12, 2.5); (20, 3); (160, 4); (360, 5); (620, 6);
   (1400, 8); (2500, 10); (3900, 12)].

Definition twice (r : R) : R * R := (r, r).

(** The rating that [calculateBreakerSize] looks up in its ladder. *)
Definition breakerRequirement (current : num) (isContinuous : bool) : num :=
  if isContinuous then (current / 0.8)%js else current.

(** *** Wire sizes

    The conductor sizes in ascending order of cross-section, as the
    ampacity table of the source lists them.  [wireLabels] are the strings
    [calculateWireSize] can build from them, followed by the label of its
    last line; [wireRank] is the position of a label in that list. *)
Definition wireSizes : list string := map fst Electrical.copperAmpacity75C.

Definition wireLabels : list string :=
  map (fun size => size ++ " AWG")%string wireSizes ++ ["1000 kcmil"].

Fixpoint position (s : string) (l : list string) : nat :=
  match l with
  | [] => 0
  | s' :: rest => if String.eqb s' s then 0 else S (position s rest)
  end.

Definition wireRank (label : string) : nat := position label wireLabels.

(** The order in which the loop of [calculateWireSize] visits the table. *)
Definition visitedSizes : list string :=
  ["1"; "2"; "3"; "4"; "6"; "8"; "10"; "12"; "14";
   "250"; "300"; "350"; "400"; "500"; "600"; "750"; "1000";
   "1/0"; "2/0"; "3/0"; "4/0"].

(** The ampacity of a table entry for the given material. *)
Definition materialAmpacity (material : string) (copper : R) : R :=
  if String.eqb material "copper" then copper
  else IZR (Zfloor (copper * 0.62 + / 2)).

(** The table in visiting order, with the copper ampacities as reals. *)
Definition visitedTable : list (string * R) :=
  [("1", 130); ("2", 115); ("3", 100); ("4", 85); ("6", 65); ("8", 50);
   ("10", 35); ("12", 25); ("14", 20); ("250", 255); ("300", 285);
   ("350", 310); ("400", 335); ("500", 380); ("600", 420); ("750", 475);
   ("1000", 545); ("1/0", 150); ("2/0", 175); ("3/0", 200); ("4/0", 230)].

(** The temperature correction factor and the required ampacity computed
    by [calculateWireSize]. *)
Definition wireTempFactor (tempRating : num) : num :=
  orElse (getNumProp Electrical.tempFactors tempRating) 1.0.

Definition wireRequirement (current : num) : num := (current / 0.8)%js.

(** [ampacity * tempFactor >= requiredAmpacity] for a table entry. *)
Definition wireFits (material : string) (tempRating current : num) (copper : R)
  : bool :=
  (Fin (materialAmpacity material copper) * wireTempFactor tempRating
   >= wireRequirement current)%js.

(** What the loop amounts to: the entries that can be the first fit, in
    visiting order. *)
Definition wireChoice (fits : R -> bool) : string :=
  if fits 130 then "1 AWG"
  else if fits 255 then "250 AWG"
  else if fits 285 then "300 AWG"
  else if fits 310 then "350 AWG"
  else if fits 335 then "400 AWG"
  else if fits 380 then "500 AWG"
  else if fits 420 then "600 AWG"
  else if fits 475 then "750 AWG"
  else if fits 545 then "1000 AWG"
  else "1000 kcmil".

(** *** Plumbing: the quantities inside the sizing functions *)

(** The adjusted DFU that [calculateDrainPipeSize] looks up. *)
Definition drainRequirement (drainageFixtureUnits slope : num) : num :=
  (drainageFixtureUnits / Math.sqrt (slope / 0.25))%js.

(** Hunter's curve on the reals. *)
Definition gpmR (x : R) : R :=
  if Rle_dec x 0 then 0
  else if Rle_dec x 10 then sqrt x * 3.5
  else if Rle_dec x 50 then Rpower x 0.45 * 8
  else if Rle_dec x 200 then Rpower x 0.38 * 15
  else Rpower x 0.35 * 20.

(** The diameter formula of [calculatePipeSize] on the reals, for a flow
    of [g] GPM. *)
Definition diameterR (g : R) : R :=
  sqrt (4 * (g / (7.48 * 60) / 5) / PI) * 12.

(** The size selected before the pressure-loss test, and the step to the
    next larger size. *)
Definition baseSize (fixtureUnits : num) : num :=
  orElse (find (fun size => (size >= Plumbing.requiredDiameter fixtureUnits)%js)
               Plumbing.standardSizes)
         (elemAt Plumbing.standardSizes 0).

Definition nextSize (selectedSize : num) : num :=
  let index := indexOf Plumbing.standardSizes selectedSize in
  if (index <? Z.of_nat (List.length Plumbing.standardSizes) - 1)%Z
  then elemAt Plumbing.standardSizes (Z.to_nat (index + 1))
  else selectedSize.

(** *** Rounding on the reals *)

(** The nearest integer, ties upwards: the value of [Math.round]. *)
Definition roundR (r : R) : R := IZR (Zfloor (r + / 2)).

(** *** HVAC: the heating load as the specification words it *)


(** *** Fire protection: the hydrant flow as the specification words it *)



(** *** Fixture-count maps *)


(** Every count of the map multiplied by [k]. *)
Definition scale (k : num) (fixtures : object num) : object num :=
  map (fun e => (fst e, (k * snd e)%js)) fixtures.


(** The next larger size of the copper ladder, entry by entry. *)
Definition nextTable : list (R * R) :=
  [(0.5, 0.75); (0.75, 1); (1, 1.25); (1.25, 1.5); (1.5, 2); (2, 2.5);
   (2.5, 3); (3, 4); (4, 5); (5, 6); (6, 8); (8, 10); (10, 12); (12, 12)].

(** The Hazen-Williams friction loss of [calculateFrictionLoss] on the
    reals, for a positive flow [q] and a positive diameter [d]. *)
Definition frictionR (q d : R) : R :=
  roundR (4.52 * Rpower q 1.85 / (Rpower 140 1.85 * Rpower d 4.87)
          * 0.433 * 100) / 100.

(** *** The wire size as the specification words it

    "Select the smallest gauge whose corrected ampacity >= required; if no
    gauge suffices, return the largest tabulated size": the table is
    written from the smallest conductor to the largest, with ampacities
    that increase, so the smallest gauge that suffices is the first fit in
    the order of the table as written. *)
Definition calculateWireSize_spec (current : num) (material : string) (tempRating : num)
  : string :=
  let table :=
    map (fun e => (fst e, Fin (materialAmpacity material (val (snd e)))))
        Electrical.copperAmpacity75C in
  match Electrical.firstFit table (wireTempFactor tempRating)
                            (wireRequirement current) with
  | Some label => label
  | None => "1000 kcmil"
  end.

(** *** Degenerate results: NaN or an infinity *)
Definition wild (a : num) : bool := isNaN a || isInf a.


(** *** HVAC: the duct diameter in inches for an airflow and a velocity *)




(** *** Voltage drop: the key and the resistance read from a size label *)

Definition sizeKey (wireSize : string) : string :=
  replaceFirst " kcmil" "" (replaceFirst " AWG" "" wireSize).




(** *** Current: the single-phase and the three-phase value on the reals *)



(** *** Plumbing: the weighted sum of a fixture-count map on the reals *)


(** *** HVAC: the cooling load before rounding, on the reals *)



(** *** Names every object inherits

    The property names an object literal inherits from [Object.prototype].
    [getProp] looks at the own properties of a table only, so a statement
    about a lookup with an arbitrary string leaves these names out. *)
Definition inheritedNames : list string :=
  ["constructor"; "__proto__"; "hasOwnProperty"; "isPrototypeOf";
   "propertyIsEnumerable"; "toLocaleString"; "toString"; "valueOf";
   "__defineGetter__"; "__defineSetter__"; "__lookupGetter__";
   "__lookupSetter__"].

(** *** Short circuit current on the reals *)


(** ** Calls that can throw

    Arithmetic on numbers, comparisons, the [Math] functions, [find],
    [indexOf], reading an array element or a property of an object,
    [Object.entries] of an object, [||] and optional chaining [?.] have no
    throwing case in ECMAScript: on an input outside their domain they give
    NaN, an infinity or [undefined].  What can throw a TypeError in the
    engine is reading a property of [undefined] and reducing an empty array
    without an initial value.  [outcome] makes that visible: a call either
    returns a value or throws. *)

Inductive outcome (A : Type) : Type :=
| Returns (a : A)
| Throws.

Arguments Returns {A} a.
Arguments Throws {A}.

Definition bind {A B : Type} (m : outcome A) (k : A -> outcome B) : outcome B :=
  match m with
  | Returns a => k a
  | Throws => Throws
  end.

Notation "x <- m ;; k" := (bind m (fun x => k))
  (at level 61, m at next level, right associativity).

(** [o.p] where [o] may be [undefined]: a TypeError on [undefined]. *)
Definition readProp {T V : Type} (o : option T) (p : T -> V) : outcome V :=
  match o with
  | Some t => Returns (p t)
  | None => Throws
  end.

(** [l.reduce(f)] without an initial value: a TypeError on an empty array,
    otherwise the fold from the first element. *)
Definition reduce {A : Type} (f : A -> A -> A) (l : list A) : outcome A :=
  match l with
  | [] => Throws
  | first :: rest => Returns (fold_left f rest first)
  end.

(** [a || b] for two values that are objects or [undefined]: an object is
    truthy. *)
Definition orObject {T : Type} (a b : option T) : option T :=
  match a with
  | Some t => Some t
  | None => b
  end.

(** The engine functions as calls.  The two with a step that can throw are
    written out with that step; the bodies of the others consist of
    operations without a throwing case, and their value is the one of the
    embedding above. *)
Module Run.

Definition calculateDemandLoad (connectedLoad demandFactor : num) : outcome num :=
  Returns (Electrical.calculateDemandLoad connectedLoad demandFactor).

Definition calculateCurrent (load voltage phases powerFactor : num) : outcome num :=
  Returns (Electrical.calculateCurrent load voltage phases powerFactor).

Definition calculateBreakerSize (current : num) (isContinuous : bool) : outcome num :=
  Returns (Electrical.calculateBreakerSize current isContinuous).

Definition calculateWireSize (current : num) (material : string) (tempRating : num)
  : outcome string :=
  Returns (Electrical.calculateWireSize current material tempRating).

Definition calculateVoltageDrop
  (current distance voltage : num) (wireSize : string) (phases : num)
  : outcome num :=
  Returns (Electrical.calculateVoltageDrop current distance voltage wireSize phases).

Definition calculateShortCircuitCurrent (transformerKVA voltage impedance : num)
  : outcome num :=
  Returns (Electrical.calculateShortCircuitCurrent transformerKVA voltage impedance).

Definition calculateTotalFixtureUnits (fixtures : object num) : outcome num :=
  Returns (Plumbing.calculateTotalFixtureUnits fixtures).

Definition fixtureUnitsToGPM (wsfu : num) : outcome num :=
  Returns (Plumbing.fixtureUnitsToGPM wsfu).

Definition calculateFrictionLoss (flowRate diameter length : num) : outcome num :=
  Returns (Plumbing.calculateFrictionLoss flowRate diameter length).

Definition calculatePipeSize (fixtureUnits length pressureAvailable : num)
  : outcome numText :=
  Returns (Plumbing.calculatePipeSize fixtureUnits length pressureAvailable).

(** [selectedSize?.size] is [undefined] when [find] found nothing. *)
Definition calculateDrainPipeSize (drainageFixtureUnits slope : num)
  : outcome numText :=
  Returns (Plumbing.calculateDrainPipeSize drainageFixtureUnits slope).

Definition calculateWaterHeaterSize (fixtureCount peakDemand : num)
  : outcome Plumbing.WaterHeater :=
  Returns (Plumbing.calculateWaterHeaterSize fixtureCount peakDemand).

Definition calculateSprinklerSystem
  (area : num) (hazardClass : string) (ceilingHeight : num)
  : outcome FireProtection.Sprinkler :=
  Returns (FireProtection.calculateSprinklerSystem area hazardClass ceilingHeight).

Definition calculateStandpipeSystem (floors buildingHeight : num)
  : outcome FireProtection.Standpipe :=
  Returns (FireProtection.calculateStandpipeSystem floors buildingHeight).

Definition calculateFirePump
  (totalFlowRequired staticPressure requiredPressure elevation : num)
  : outcome FireProtection.FirePump :=
  Returns (FireProtection.calculateFirePump totalFlowRequired staticPressure
                                            requiredPressure elevation).

Definition calculateFireHydrantFlow (buildingArea : num) (constructionType : string)
  : outcome num :=
  Returns (FireProtection.calculateFireHydrantFlow buildingArea constructionType).

Definition calculateHeadSpacing (coverage : num)
  : outcome FireProtection.HeadSpacing :=
  Returns (FireProtection.calculateHeadSpacing coverage).

Definition calculateHeatingLoad (area occupancy outdoorTemp indoorTemp : num)
  : outcome num :=
  Returns (HVAC.calculateHeatingLoad area occupancy outdoorTemp indoorTemp).

Definition calculateCoolingLoad (area occupancy outdoorTemp indoorTemp : num)
  : outcome num :=
  Returns (HVAC.calculateCoolingLoad area occupancy outdoorTemp indoorTemp).

(** [rates.perPerson] and [rates.perArea] read properties of
    [ventilationRates[...] || ventilationRates.office]. *)
Definition calculateVentilationRate (area occupancy : num) (spaceType : string)
  : outcome num :=
  let rates :=
    orObject (getProp HVAC.ventilationRates (toLowerCase spaceType))
             (getProp HVAC.ventilationRates "office") in
  perPerson <- readProp rates HVAC.perPerson ;;
  perArea <- readProp rates HVAC.perArea ;;
  let ventilation := (occupancy * perPerson + area * perArea)%js in
  Returns (Math.round ventilation).

Definition calculateEquipmentCapacity (coolingLoad : num) : outcome num :=
  Returns (HVAC.calculateEquipmentCapacity coolingLoad).

(** [standardSizes.reduce(...)] has no initial value. *)
Definition calculateDuctSize (airflow velocity : num) : outcome num :=
  let area := (airflow / velocity)%js in
  let diameter := (Math.sqrt (4 * area / Math.PI) * 12)%js in
  closestSize <-
    reduce (fun prev curr =>
              if (Math.abs (curr - diameter) < Math.abs (prev - diameter))%js
              then curr else prev)
           HVAC.standardSizes ;;
  Returns closestSize.

End Run.

(** ** Runs in binary64

    [num] computes with exact reals, so it cannot show where the rounding
    of binary64 arithmetic decides a result.  For the functions below that
    consist of [+], [-], [*], [/], [Math.round], [Math.ceil] and [Math.max]
    the module [B64] repeats the embedding over the binary64 numbers of the
    kernel, with the IEEE-754 operations ECMAScript prescribes; a decimal
    literal denotes the nearest binary64 number, as in the source.  Its
    functions are evaluated at concrete inputs. *)

Module B64.

Import PrimFloat.
#[local] Set Warnings "-inexact-float".
Local Open Scope float_scope.

Definition isNaN (a : float) : bool := negb (a =? a).

(** The sign bit of a zero. *)
Definition isNZero (a : float) : bool := (a =? 0) && (1 / a <? 0).

(** ToBoolean: the zeros and NaN are falsy *)
Definition truthy (a : float) : bool := negb (isNaN a || (a =? 0)).

(** [o || d] where [o] is a number or [undefined] *)
Definition orElse (o : option float) (d : float) : float :=
  match o with
  | Some a => if truthy a then a else d
  | None => d
  end.

(** 2^52: from there on every binary64 number is an integer. *)
Definition two52 : float := 4503599627370496.

(** [Math.floor]: below 2^52, adding and subtracting 2^52 rounds the
    absolute value to a nearest integer, which is then moved to the right
    side of the argument. *)
Definition floor (a : float) : float :=
  if (abs a <? two52) && negb (a =? 0) then
    let nearest := (abs a + two52) - two52 in
    if a <? 0 then
      - (if nearest <? abs a then nearest + 1 else nearest)
    else
      if abs a <? nearest then nearest - 1 else nearest
  else a.

(** [Math.ceil(a)] is [-Math.floor(-a)], the sign of a zero included. *)
Definition ceil (a : float) : float := - floor (- a).

(** [Math.round]: the nearest integer, ties towards +Infinity; a result of
    zero keeps the sign of the argument. *)
Definition round (a : float) : float :=
  if (abs a <? two52) && negb (a =? 0) then
    let below := floor a in
    let r := if 0.5 <=? a - below then below + 1 else below in
    if (r =? 0) && (a <? 0) then - 0 else r
  else a.

(** [Math.max] of two numbers: NaN if either is NaN, and +0 counts as
    larger than -0. *)
Definition max (a b : float) : float :=
  if isNaN a || isNaN b then nan
  else if a <? b then b
  else if b <? a then a
  else if isNZero a then b else a.

(** [outdoorTemp] and [indoorTemp] default to 0 and 70 at the call. *)
Definition calculateHeatingLoad (area occupancy outdoorTemp indoorTemp : float)
  : float :=
  let envelopeLoss := area * 30 in
  let tempDiff := indoorTemp - outdoorTemp in
  let tempFactor := tempDiff / 70 in
  let infiltrationLoss := area * 0.018 * tempDiff in
  let occupancyLoad := occupancy * (-250) in
  let totalLoad := envelopeLoss * tempFactor + infiltrationLoss + occupancyLoad in
  max 0 (round totalLoad).

(** [outdoorTemp] and [indoorTemp] default to 95 and 75 at the call. *)
Definition calculateCoolingLoad (area occupancy outdoorTemp indoorTemp : float)
  : float :=
  let solarGain := area * 40 in
  let conductionGain := area * 15 in
  let tempDiff := outdoorTemp - indoorTemp in
  let tempFactor := tempDiff / 20 in
  let infiltrationGain := area * 0.018 * tempDiff in
  let lightsLoad := area * 1.5 in
  let equipmentLoad := area * 1.0 in
  let occupancyLoad := occupancy * 250 in
  let occupancyLatent := occupancy * 200 in
  let internalLoad := (lightsLoad + equipmentLoad) * 3.412 in
  let totalLoad :=
    (solarGain + conductionGain) * tempFactor
    + infiltrationGain + internalLoad
    + occupancyLoad + occupancyLatent in
  round totalLoad.

Definition fixtureUnits : object float :=
  [("Water Closet (Tank)", 3);
   ("Water Closet (Flush Valve)", 5);
   ("Urinal (Flush Valve)", 5);
   ("Urinal (Tank)", 3);
   ("Lavatory", 1);
   ("Sink (Kitchen)", 2);
   ("Sink (Service)", 3);
   ("Bathtub", 3);
   ("Shower", 2);
   ("Dishwasher (Domestic)", 2);
   ("Washing Machine", 3);
   ("Drinking Fountain", 0.5);
   ("Hose Bibb", 3)].

(** One turn of the loop body: [total += units * count]. *)
Definition addFixture (total : float) (e : string * float) : float :=
  let units := orElse (getProp fixtureUnits (fst e)) 1 in
  total + units * snd e.

Definition calculateTotalFixtureUnits (fixtures : object float) : float :=
  fold_left addFixture (entries fixtures) 0.

(** Every count of the map multiplied by [k]. *)
Definition scale (k : float) (fixtures : object float) : object float :=
  map (fun e => (fst e, k * snd e)) fixtures.

Record WaterHeater : Type := { tankCapacity : float; recoveryRate : float }.

(** [peakDemand] defaults to 0.4 at the call. *)
Definition calculateWaterHeaterSize (fixtureCount peakDemand : float) : WaterHeater :=
  let baseCapacity := fixtureCount * 12 in
  let tankCapacity := ceil (baseCapacity * peakDemand / 10) * 10 in
  let recoveryRate := ceil (baseCapacity * peakDemand * 0.7) in
  {| tankCapacity := tankCapacity; recoveryRate := recoveryRate |}.

Record FirePump : Type := {
  pumpCapacity : float;
  pumpPressure : float;
  horsepower : float;
  pumpType : string
}.

Definition calculateFirePump
  (totalFlowRequired staticPressure requiredPressure elevation : float) : FirePump :=
  let pumpCapacity := ceil (totalFlowRequired * 1.5 / 100) * 100 in
  let elevationPressure := elevation * 0.433 in
  let frictionLoss := elevation * 0.15 in
  let pressureDeficit :=
    requiredPressure - staticPressure + elevationPressure + frictionLoss in
  let pumpPressure := ceil (max 0 pressureDeficit / 5) * 5 in
  let horsepower :=
    ceil (pumpCapacity * pumpPressure / (1714 * 0.70) / 5) * 5 in
  let pumpType :=
    if (pumpCapacity <=? 1500) && (pumpPressure <=? 100)
    then "Horizontal Split Case"%string
    else if (pumpCapacity <=? 1000) && (100 <? pumpPressure)
    then "Vertical Turbine"%string
    else "Horizontal Split Case (Large)"%string in
  {| pumpCapacity := pumpCapacity;
     pumpPressure := pumpPressure;
     horsepower := horsepower;
     pumpType := pumpType |}.

End B64.

(** *** HVAC: the heating load before it is rounded and floored *)


(** *** Whole numbers *)


(** A call that returns. *)
Definition returns {A : Type} (m : outcome A) : Prop := exists v, m = Returns v.
(** * Properties

    ** Boolean decisions on real numbers *)

Lemma Rltb_true x y : Rltb x y = true <-> x < y.
Proof. unfold Rltb; destruct (Rlt_dec x y); split; intros; (easy || lra). Qed.

Lemma Rltb_false x y : Rltb x y = false <-> y <= x.
Proof. unfold Rltb; destruct (Rlt_dec x y); split; intros; (easy || lra). Qed.

Lemma Rleb_true x y : Rleb x y = true <-> x <= y.
Proof. unfold Rleb; destruct (Rle_dec x y); split; intros; (easy || lra). Qed.

Lemma Rleb_false x y : Rleb x y = false <-> y < x.
Proof. unfold Rleb; destruct (Rle_dec x y); split; intros; (easy || lra). Qed.

Lemma Reqb_true x y : Reqb x y = true <-> x = y.
Proof. unfold Reqb; destruct (Req_dec_T x y); split; intros; (easy || lra). Qed.

Lemma Reqb_false x y : Reqb x y = false <-> x <> y.
Proof. unfold Reqb; destruct (Req_dec_T x y); split; intros; (easy || lra). Qed.


(** ** Enumeration order *)

Example entries_order :
  map fst (entries [("14", 1%nat); ("12", 2%nat); ("1", 3%nat); ("1/0", 4%nat);
                    ("250", 5%nat); ("b", 6%nat); ("007", 7%nat)])
  = ["1"; "12"; "14"; "250"; "1/0"; "b"; "007"].
Proof. reflexivity. Qed.

(** ** Case analysis on numbers *)

Ltac rdec :=
  repeat match goal with
    | |- context [Rlt_dec ?a ?b] => destruct (Rlt_dec a b)
    | |- context [Rle_dec ?a ?b] => destruct (Rle_dec a b)
    | |- context [Req_dec_T ?a ?b] => destruct (Req_dec_T a b)
    | H : context [Rlt_dec ?a ?b] |- _ => destruct (Rlt_dec a b)
    | H : context [Rle_dec ?a ?b] |- _ => destruct (Rle_dec a b)
    | H : context [Req_dec_T ?a ?b] |- _ => destruct (Req_dec_T a b)
    end.

Ltac unfold_num :=
  unfold orElse, orDefault, toNumber, truthy, ge, gt, strictEq, le, lt,
    mul, div, sub, add, neg, isNaN, isInf, isZero, isNZero, sgn, val,
    zero, inf, Rltb, Rleb, Reqb in *.

Ltac num_crush :=
  unfold_num; repeat (simpl in *; progress rdec); simpl in *;
  try congruence; try lra; try reflexivity.

Lemma le_trans (a b c : num) :
  le a b = true -> le b c = true -> le a c = true.
Proof. destruct a, b, c; num_crush. Qed.

Lemma le_refl_fin (r : R) : le (Fin r) (Fin r) = true.
Proof. num_crush. Qed.

Lemma le_Fin (r s : R) : le (Fin r) (Fin s) = true <-> r <= s.
Proof. unfold le; simpl; apply Rleb_true. Qed.

Lemma lt_Fin (r s : R) : lt (Fin r) (Fin s) = true <-> r < s.
Proof. unfold lt; simpl; apply Rltb_true. Qed.

(** Dividing by a positive constant keeps the order. *)
Lemma div_pos_mono (a b : num) (c : R) :
  0 < c -> le a b = true -> le (a / c)%js (b / c)%js = true.
Proof.
  intros Hc H.
  assert (Hic : 0 < / c) by (apply Rinv_0_lt_compat; lra).
  destruct a, b; num_crush; exfalso; unfold Rdiv in *;
    generalize dependent (/ c); intros; nra.
Qed.

(** ** Ladders *)

Lemma pick_cons (x : num) (p : R * R) (l : list (R * R)) (d : R) :
  pick x (p :: l) d = if (Fin (fst p) >= x)%js then snd p else pick x l d.
Proof. unfold pick; simpl. now destruct (Fin (fst p) >= x)%js. Qed.

Lemma pick_in (x : num) (l : list (R * R)) (d : R) :
  pick x l d = d \/ In (pick x l d) (map snd l).
Proof.
  induction l as [|p l IH]; [now left|].
  rewrite pick_cons. destruct (Fin (fst p) >= x)%js.
  - right; now left.
  - destruct IH as [IH|IH]; [now left | right; now right].
Qed.

Lemma pick_none (x : num) (l : list (R * R)) (d : R) :
  Forall (fun p => (Fin (fst p) >= x)%js = false) l -> pick x l d = d.
Proof.
  induction 1 as [|p l Hp _ IH]; [reflexivity|].
  now rewrite pick_cons, Hp.
Qed.

Lemma rising_lower (x : num) (l : list (R * R)) (d : R) (p : R * R) :
  rising (p :: l) d -> snd p <= pick x l d.
Proof.
  revert p; induction l as [|q l IH]; intros p (Hpos & Hd & Hq & Hl).
  - exact Hd.
  - rewrite pick_cons. destruct (Fin (fst q) >= x)%js; [tauto|].
    apply Rle_trans with (snd q); [tauto | now apply IH].
Qed.

Lemma rising_pos (x : num) (l : list (R * R)) (d : R) :
  rising l d -> 0 < d -> 0 < pick x l d.
Proof.
  intros Hl Hd; induction l as [|p l IH]; [exact Hd|].
  rewrite pick_cons. destruct Hl as (Hpos & _ & _ & Hl).
  destruct (Fin (fst p) >= x)%js; auto.
Qed.

Lemma rising_le (x : num) (l : list (R * R)) (d : R) :
  rising l d -> pick x l d <= d.
Proof.
  intros Hl; induction l as [|p l IH]; [unfold pick; simpl; lra|].
  rewrite pick_cons. destruct Hl as (_ & Hd & _ & Hl).
  destruct (Fin (fst p) >= x)%js; auto.
Qed.

(** The selection is monotonic in the requirement. *)
Lemma pick_mono (x1 x2 : num) (l : list (R * R)) (d : R) :
  rising l d -> le x1 x2 = true -> pick x1 l d <= pick x2 l d.
Proof.
  intros Hl Hx; induction l as [|p l IH]; [unfold pick; simpl; lra|].
  rewrite !pick_cons.
  destruct (Fin (fst p) >= x1)%js eqn:H1, (Fin (fst p) >= x2)%js eqn:H2.
  - lra.
  - now apply rising_lower.
  - unfold ge in *. now rewrite (le_trans _ _ _ Hx H2) in H1.
  - apply IH. simpl in Hl; tauto.
Qed.

(** Reading a ladder of numbers, or of records, through [pick]. *)
Lemma orElse_find {A : Type} (mk : R * R -> A) (key out : A -> num)
    (x : num) (l : list (R * R)) (d : R) :
  Forall (fun p => key (mk p) = Fin (fst p) /\ out (mk p) = Fin (snd p)
                   /\ snd p <> 0) l ->
  orElse (option_map out (find (fun a => (key a >= x)%js) (map mk l))) (Fin d)
  = Fin (pick x l d).
Proof.
  intros Hl; induction Hl as [|p l (Hk & Ho & Hp) _ IH]; [reflexivity|].
  rewrite pick_cons; simpl. rewrite Hk.
  destruct (Fin (fst p) >= x)%js; [|exact IH].
  simpl. rewrite Ho. unfold orDefault, truthy; simpl.
  now rewrite (proj2 (Reqb_false _ _) Hp).
Qed.

Lemma orElse_find_num (x : num) (l : list R) (d : R) :
  Forall (fun r => r <> 0) l ->
  orElse (find (fun size => (size >= x)%js) (map Fin l)) (Fin d)
  = Fin (pick x (map twice l) d).
Proof.
  intros Hl.
  rewrite <- (orElse_find (fun p => Fin (fst p)) (fun a => a) (fun a => a)).
  - rewrite map_map; simpl.
    now destruct (find _ _).
  - rewrite Forall_map. revert Hl; apply Forall_impl; simpl; auto.
Qed.

Ltac ladder_facts := simpl; repeat split; lra.

Lemma breakerLadder_rising : rising (map twice breakerLadder) 1200.
Proof. ladder_facts. Qed.

Lemma pipeLadder_rising : rising (map twice pipeLadder) 12.
Proof. unfold pipeLadder; ladder_facts. Qed.

Lemma drainLadder_rising : rising drainLadder 12.
Proof. unfold drainLadder; ladder_facts. Qed.

Lemma breakerLadder_nonzero : Forall (fun r => r <> 0) breakerLadder.
Proof. repeat constructor; lra. Qed.

Lemma pipeLadder_nonzero : Forall (fun r => r <> 0) pipeLadder.
Proof. repeat constructor; lra. Qed.

Lemma drainLadder_nonzero : Forall (fun p => snd p <> 0) drainLadder.
Proof. repeat constructor; simpl; lra. Qed.

(** ** calculateBreakerSize *)

Lemma calculateBreakerSize_pick (current : num) (isContinuous : bool) :
  Electrical.calculateBreakerSize current isContinuous
  = Fin (pick (breakerRequirement current isContinuous)
              (map twice breakerLadder) 1200).
Proof.
  unfold Electrical.calculateBreakerSize.
  change (elemAt _ _) with (Fin 1200).
  exact (orElse_find_num _ breakerLadder 1200 breakerLadder_nonzero).
Qed.

(** ** calculateWireSize *)

Lemma entries_copper :
  entries Electrical.copperAmpacity75C
  = [("1", Fin 130); ("2", Fin 115); ("3", Fin 100); ("4", Fin 85);
     ("6", Fin 65); ("8", Fin 50); ("10", Fin 35); ("12", Fin 25);
     ("14", Fin 20); ("250", Fin 255); ("300", Fin 285); ("350", Fin 310);
     ("400", Fin 335); ("500", Fin 380); ("600", Fin 420); ("750", Fin 475);
     ("1000", Fin 545); ("1/0", Fin 150); ("2/0", Fin 175); ("3/0", Fin 200);
     ("4/0", Fin 230)].
Proof. reflexivity. Qed.

Lemma visitedSizes_entries :
  map fst (entries Electrical.copperAmpacity75C) = visitedSizes.
Proof. reflexivity. Qed.

Lemma entries_fromEntries_copper (g : num -> num) :
  entries (fromEntries (map (fun e => (fst e, g (snd e)))
                            (entries Electrical.copperAmpacity75C)))
  = map (fun e => (fst e, g (snd e))) (entries Electrical.copperAmpacity75C).
Proof. reflexivity. Qed.

Lemma round_aluminum (a : R) :
  0 < a -> Math.round (Fin a * 0.62)%js = Fin (IZR (Zfloor (a * 0.62 + / 2))).
Proof.
  intros Ha. unfold mul; simpl.
  rewrite (proj2 (Reqb_false a 0)) by lra.
  rewrite (proj2 (Reqb_false 0.62 0)) by lra.
  simpl. rewrite (proj2 (Rltb_false (a * 0.62) 0)) by nra.
  now rewrite andb_false_r.
Qed.

Lemma wireTempFactor_cases (tempRating : num) :
  wireTempFactor tempRating = Fin 0.88 \/
  wireTempFactor tempRating = Fin 1 \/
  wireTempFactor tempRating = Fin 1.04.
Proof.
  unfold wireTempFactor, Electrical.tempFactors, getNumProp.
  destruct tempRating; num_crush; auto.
  all: right; left; f_equal; lra.
Qed.

Lemma wireTempFactor_pos (tempRating : num) :
  exists tf, wireTempFactor tempRating = Fin tf /\ 0 < tf.
Proof.
  destruct (wireTempFactor_cases tempRating) as [H|[H|H]]; rewrite H;
    eexists; split; try reflexivity; lra.
Qed.

Lemma materialAmpacity_mono (material : string) (a b : R) :
  a <= b -> materialAmpacity material a <= materialAmpacity material b.
Proof.
  intros H. unfold materialAmpacity. destruct (String.eqb _ _); [exact H|].
  apply IZR_le, Zfloor_le. lra.
Qed.

Lemma materialAmpacity_nonneg (material : string) (a : R) :
  0 <= a -> 0 <= materialAmpacity material a.
Proof.
  intros Ha. unfold materialAmpacity. destruct (String.eqb _ _); [exact Ha|].
  apply (IZR_le 0). apply Zfloor_lub. simpl. lra.
Qed.

Lemma ge_mul_Fin (u tf : R) (req : num) :
  (Fin u * Fin tf >= req)%js = le req (Fin (u * tf)).
Proof.
  destruct req; num_crush; exfalso; nra.
Qed.

Lemma wireFits_mono (material : string) (tempRating current : num) (a b : R) :
  a <= b ->
  wireFits material tempRating current a = true ->
  wireFits material tempRating current b = true.
Proof.
  intros Hab. unfold wireFits.
  destruct (wireTempFactor_pos tempRating) as (tf & -> & Htf).
  rewrite !ge_mul_Fin. intros H. apply (le_trans _ _ _ H).
  apply le_Fin. apply Rmult_le_compat_r; [lra|].
  now apply materialAmpacity_mono.
Qed.

Lemma wireFits_current (material : string) (tempRating c1 c2 : num) (a : R) :
  le c1 c2 = true ->
  wireFits material tempRating c2 a = true ->
  wireFits material tempRating c1 a = true.
Proof.
  intros Hc. unfold wireFits, ge. apply le_trans.
  apply div_pos_mono; [lra | exact Hc].
Qed.

(** The table that the loop walks through, for either material. *)
Lemma entries_ampacityTable (material : string) :
  entries (if String.eqb material "copper" then Electrical.copperAmpacity75C
           else fromEntries
                  (map (fun e => (fst e, Math.round (snd e * 0.62)%js))
                       (entries Electrical.copperAmpacity75C)))
  = map (fun e => (fst e, Fin (materialAmpacity material (snd e)))) visitedTable.
Proof.
  unfold materialAmpacity. destruct (String.eqb material "copper").
  - reflexivity.
  - rewrite (entries_fromEntries_copper (fun a => Math.round (a * 0.62)%js)).
    rewrite entries_copper.
    unfold visitedTable; simpl.
    rewrite !round_aluminum by lra. reflexivity.
Qed.

Lemma calculateWireSize_firstFit (current : num) (material : string) (tempRating : num) :
  Electrical.calculateWireSize current material tempRating
  = match Electrical.firstFit
            (map (fun e => (fst e, Fin (materialAmpacity material (snd e))))
                 visitedTable)
            (wireTempFactor tempRating) (wireRequirement current) with
    | Some label => label
    | None => "1000 kcmil"
    end.
Proof.
  unfold Electrical.calculateWireSize. now rewrite entries_ampacityTable.
Qed.

Lemma wireFits_false (material : string) (tempRating current : num) (a b : R) :
  wireFits material tempRating current b = false -> a <= b ->
  wireFits material tempRating current a = false.
Proof.
  intros Hb Hab.
  destruct (wireFits material tempRating current a) eqn:Ha; [|reflexivity].
  now rewrite (wireFits_mono _ _ _ a b Hab Ha) in Hb.
Qed.

Lemma firstFit_cons (material : string) (tempRating current : num)
    (k : string) (a : R) (rest : list (string * R)) :
  Electrical.firstFit
    (map (fun e => (fst e, Fin (materialAmpacity material (snd e))))
         ((k, a) :: rest))
    (wireTempFactor tempRating) (wireRequirement current)
  = if wireFits material tempRating current a then Some (k ++ " AWG")%string
    else Electrical.firstFit
           (map (fun e => (fst e, Fin (materialAmpacity material (snd e)))) rest)
           (wireTempFactor tempRating) (wireRequirement current).
Proof. reflexivity. Qed.

Ltac skip_dominated :=
  repeat match goal with
    | H : wireFits ?m ?t ?c ?b = false |- context [wireFits ?m ?t ?c ?a] =>
        rewrite (wireFits_false m t c a b H) by lra
    end.

Lemma calculateWireSize_choice (current : num) (material : string) (tempRating : num) :
  Electrical.calculateWireSize current material tempRating
  = wireChoice (wireFits material tempRating current).
Proof.
  rewrite calculateWireSize_firstFit. unfold visitedTable, wireChoice.
  rewrite !firstFit_cons. simpl Electrical.firstFit.
  repeat (skip_dominated;
          match goal with
          | |- context [wireFits ?m ?t ?c ?a] =>
              destruct (wireFits m t c a) eqn:?; [reflexivity|]
          end).
  skip_dominated. reflexivity.
Qed.

Lemma wireChoice_mono (P1 P2 : R -> bool) :
  (forall a, P2 a = true -> P1 a = true) ->
  (wireRank (wireChoice P1) <= wireRank (wireChoice P2))%nat.
Proof.
  intros H. unfold wireChoice.
  repeat match goal with
    | |- context [if P2 ?a then _ else _] =>
        let E := fresh "E" in
        destruct (P2 a) eqn:E; [rewrite (H a E)|]
    end;
  repeat match goal with
    | |- context [if P1 ?a then _ else _] => destruct (P1 a)
    end;
  vm_compute; lia.
Qed.

Lemma wireChoice_label (P : R -> bool) : In (wireChoice P) wireLabels.
Proof.
  unfold wireChoice.
  repeat match goal with
    | |- context [if P ?a then _ else _] => destruct (P a)
    end;
  vm_compute; tauto.
Qed.

(** ** Arithmetic on finite non-negative numbers *)

Lemma mul_Fin (a b : R) : 0 <= a -> 0 <= b -> (Fin a * Fin b)%js = Fin (a * b).
Proof. intros; num_crush; f_equal; nra. Qed.

Lemma div_Fin (a b : R) : 0 <= a -> 0 < b -> (Fin a / Fin b)%js = Fin (a / b).
Proof.
  intros Ha Hb; num_crush. subst a. f_equal. unfold Rdiv; lra.
Qed.

Lemma sqrt_Fin (a : R) : 0 <= a -> Math.sqrt (Fin a) = Fin (sqrt a).
Proof. intros; unfold Math.sqrt; num_crush. Qed.

Lemma pow_Fin (a y : R) : 0 < a -> Math.pow (Fin a) y = Fin (Rpower a y).
Proof. intros; unfold Math.pow; num_crush. Qed.

Lemma Rpower_pos (a y : R) : 0 < Rpower a y.
Proof. unfold Rpower; apply exp_pos. Qed.

Lemma div_nonneg (a b : R) : 0 <= a -> 0 < b -> 0 <= a / b.
Proof.
  intros Ha Hb. unfold Rdiv. apply Rmult_le_pos; [lra|].
  left; now apply Rinv_0_lt_compat.
Qed.

Lemma div_le_compat (a b c : R) : 0 < c -> a <= b -> a / c <= b / c.
Proof.
  intros Hc H. unfold Rdiv. apply Rmult_le_compat_r; [|exact H].
  left; now apply Rinv_0_lt_compat.
Qed.

Lemma PI_gt_3 : 3 < PI.
Proof. pose proof PI2_3_2; lra. Qed.

(** ** fixtureUnitsToGPM *)

Lemma gpmR_nonneg (x : R) : 0 <= gpmR x.
Proof.
  unfold gpmR; rdec; try lra.
  - pose proof (sqrt_pos x); lra.
  - pose proof (Rpower_pos x 0.45); lra.
  - pose proof (Rpower_pos x 0.38); lra.
  - pose proof (Rpower_pos x 0.35); lra.
Qed.

Lemma fixtureUnitsToGPM_Fin (x : R) :
  Plumbing.fixtureUnitsToGPM (Fin x) = Fin (gpmR x).
Proof.
  unfold Plumbing.fixtureUnitsToGPM, gpmR.
  change (Fin x <= 0)%js with (Rleb x 0).
  change (Fin x <= 10)%js with (Rleb x 10).
  change (Fin x <= 50)%js with (Rleb x 50).
  change (Fin x <= 200)%js with (Rleb x 200).
  unfold Rleb.
  destruct (Rle_dec x 0); [reflexivity|].
  destruct (Rle_dec x 10).
  - rewrite sqrt_Fin by lra.
    now rewrite mul_Fin by (try apply sqrt_pos; lra).
  - destruct (Rle_dec x 50); [|destruct (Rle_dec x 200)];
      rewrite pow_Fin by lra;
      now rewrite mul_Fin by (try (left; apply Rpower_pos); lra).
Qed.

(** ** Bounds on real powers through integer powers *)

Lemma Rpower_frac (a y : R) (p q : nat) :
  0 < a -> (0 < q)%nat -> y * INR q = INR p ->
  Rpower a y = Rpower (a ^ p) (/ INR q).
Proof.
  intros Ha Hq Hy.
  rewrite <- Rpower_pow by exact Ha. rewrite Rpower_mult. f_equal.
  rewrite <- Hy. field. apply not_0_INR. lia.
Qed.

Lemma Rpower_root (c : R) (q : nat) :
  0 < c -> (0 < q)%nat -> Rpower (c ^ q) (/ INR q) = c.
Proof.
  intros Hc Hq.
  rewrite <- Rpower_pow by exact Hc. rewrite Rpower_mult.
  rewrite Rinv_r by (apply not_0_INR; lia). now apply Rpower_1.
Qed.

Lemma Rpower_below (a y c : R) (p q : nat) :
  0 < a -> 0 < c -> (0 < q)%nat -> y * INR q = INR p ->
  a ^ p < c ^ q -> Rpower a y < c.
Proof.
  intros Ha Hc Hq Hy H.
  rewrite (Rpower_frac a y p q Ha Hq Hy), <- (Rpower_root c q Hc Hq).
  apply Rlt_Rpower_l.
  - apply Rinv_0_lt_compat, lt_0_INR, Hq.
  - split; [now apply pow_lt | exact H].
Qed.

Lemma Rpower_above (a y c : R) (p q : nat) :
  0 < a -> 0 < c -> (0 < q)%nat -> y * INR q = INR p ->
  c ^ q < a ^ p -> c < Rpower a y.
Proof.
  intros Ha Hc Hq Hy H.
  rewrite (Rpower_frac a y p q Ha Hq Hy), <- (Rpower_root c q Hc Hq).
  apply Rlt_Rpower_l.
  - apply Rinv_0_lt_compat, lt_0_INR, Hq.
  - split; [now apply pow_lt | exact H].
Qed.

(** Comparison of integer powers of integers, decided on [Z]. *)
Lemma pow_IZR_lt (a b : Z) (p q : nat) :
  (a ^ Z.of_nat p < b ^ Z.of_nat q)%Z -> IZR a ^ p < IZR b ^ q.
Proof. intros H. rewrite !pow_IZR. now apply IZR_lt. Qed.

Ltac frac_side := simpl; lra.

Lemma gpm_bound_10 : 2 < Rpower 10 0.45.
Proof.
  apply (Rpower_above 10 0.45 2 9 20); [lra | lra | lia | frac_side |].
  apply (pow_IZR_lt 2 10 20 9). reflexivity.
Qed.

Lemma gpm_bound_50_upper : Rpower 50 0.45 < 6.
Proof.
  apply (Rpower_below 50 0.45 6 9 20); [lra | lra | lia | frac_side |].
  apply (pow_IZR_lt 50 6 9 20). reflexivity.
Qed.

Lemma gpm_bound_50_lower : 4 < Rpower 50 0.38.
Proof.
  apply (Rpower_above 50 0.38 4 19 50); [lra | lra | lia | frac_side |].
  apply (pow_IZR_lt 4 50 50 19). reflexivity.
Qed.

Lemma gpm_bound_200_upper : Rpower 200 0.38 < 8.
Proof.
  apply (Rpower_below 200 0.38 8 19 50); [lra | lra | lia | frac_side |].
  apply (pow_IZR_lt 200 8 19 50). reflexivity.
Qed.

Lemma gpm_bound_200_lower : 6 < Rpower 200 0.35.
Proof.
  apply (Rpower_above 200 0.35 6 7 20); [lra | lra | lia | frac_side |].
  apply (pow_IZR_lt 6 200 20 7). reflexivity.
Qed.

(** Ranges of the four branches of Hunter's curve. *)
Lemma gpmR_branch1 (x : R) : 0 < x -> x <= 10 -> 0 < gpmR x < 14.
Proof.
  intros H0 H10. unfold gpmR; rdec; try lra.
  assert (0 < sqrt x) by (apply sqrt_lt_R0; lra).
  assert (sqrt x < 4).
  { replace 4 with (sqrt 16) by (replace 16 with (4 * 4) by lra;
                                 apply sqrt_square; lra).
    apply sqrt_lt_1; lra. }
  lra.
Qed.

Lemma gpmR_branch2 (x : R) : 10 < x -> x <= 50 -> 16 < gpmR x < 48.
Proof.
  intros H0 H1. unfold gpmR; rdec; try lra.
  assert (Rpower 10 0.45 < Rpower x 0.45) by (apply Rlt_Rpower_l; lra).
  assert (Rpower x 0.45 <= Rpower 50 0.45) by (apply Rle_Rpower_l; lra).
  pose proof gpm_bound_10. pose proof gpm_bound_50_upper. lra.
Qed.

Lemma gpmR_branch3 (x : R) : 50 < x -> x <= 200 -> 60 < gpmR x < 120.
Proof.
  intros H0 H1. unfold gpmR; rdec; try lra.
  assert (Rpower 50 0.38 < Rpower x 0.38) by (apply Rlt_Rpower_l; lra).
  assert (Rpower x 0.38 <= Rpower 200 0.38) by (apply Rle_Rpower_l; lra).
  pose proof gpm_bound_50_lower. pose proof gpm_bound_200_upper. lra.
Qed.

Lemma gpmR_branch4 (x : R) : 200 < x -> 120 < gpmR x.
Proof.
  intros H0. unfold gpmR; rdec; try lra.
  assert (Rpower 200 0.35 < Rpower x 0.35) by (apply Rlt_Rpower_l; lra).
  pose proof gpm_bound_200_lower. lra.
Qed.

Lemma gpmR_zero (x : R) : x <= 0 -> gpmR x = 0.
Proof. intros H; unfold gpmR; rdec; lra. Qed.

(** Hunter's curve is strictly increasing from 0 on. *)
Lemma gpmR_strict (x y : R) : 0 <= x -> x < y -> gpmR x < gpmR y.
Proof.
  intros Hx Hxy.
  destruct (Rle_dec x 0) as [X0|X0].
  { rewrite (gpmR_zero x X0).
    destruct (Rle_dec y 10); [apply gpmR_branch1; lra|].
    destruct (Rle_dec y 50); [pose proof (gpmR_branch2 y); lra|].
    destruct (Rle_dec y 200); [pose proof (gpmR_branch3 y); lra|].
    pose proof (gpmR_branch4 y); lra. }
  destruct (Rle_dec x 10) as [X1|X1].
  { destruct (Rle_dec y 10).
    - unfold gpmR; rdec; try lra.
      assert (sqrt x < sqrt y) by (apply sqrt_lt_1; lra). lra.
    - pose proof (gpmR_branch1 x).
      destruct (Rle_dec y 50); [pose proof (gpmR_branch2 y); lra|].
      destruct (Rle_dec y 200); [pose proof (gpmR_branch3 y); lra|].
      pose proof (gpmR_branch4 y); lra. }
  destruct (Rle_dec x 50) as [X2|X2].
  { destruct (Rle_dec y 50).
    - unfold gpmR; rdec; try lra.
      assert (Rpower x 0.45 < Rpower y 0.45) by (apply Rlt_Rpower_l; lra). lra.
    - pose proof (gpmR_branch2 x).
      destruct (Rle_dec y 200); [pose proof (gpmR_branch3 y); lra|].
      pose proof (gpmR_branch4 y); lra. }
  destruct (Rle_dec x 200) as [X3|X3].
  { destruct (Rle_dec y 200).
    - unfold gpmR; rdec; try lra.
      assert (Rpower x 0.38 < Rpower y 0.38) by (apply Rlt_Rpower_l; lra). lra.
    - pose proof (gpmR_branch3 x). pose proof (gpmR_branch4 y); lra. }
  unfold gpmR; rdec; try lra.
  assert (Rpower x 0.35 < Rpower y 0.35) by (apply Rlt_Rpower_l; lra). lra.
Qed.

Lemma gpmR_mono (x y : R) : x <= y -> gpmR x <= gpmR y.
Proof.
  intros Hxy. destruct (Rle_dec x 0) as [X0|X0].
  - rewrite (gpmR_zero x X0). apply gpmR_nonneg.
  - destruct (Req_dec_T x y) as [->|Hne]; [lra|].
    left; apply gpmR_strict; lra.
Qed.

(** ** Finite numbers: the operators compute on the real values *)




Lemma mul_finite (a b : num) :
  finite a -> finite b -> finite (a * b)%js /\ val (a * b)%js = val a * val b.
Proof.
  destruct a, b; simpl; intros; try tauto; num_crush; split; auto; nra.
Qed.

Lemma div_finite (a b : num) :
  finite a -> finite b -> val b <> 0 ->
  finite (a / b)%js /\ val (a / b)%js = val a / val b.
Proof.
  destruct a, b; simpl; intros; try tauto; num_crush; split; auto;
    unfold Rdiv; try lra; try nra.
Qed.

Lemma round_finite (a : num) :
  finite a -> finite (Math.round a) /\ val (Math.round a) = roundR (val a).
Proof.
  destruct a; simpl; intros; try tauto; unfold roundR.
  - destruct (Z.eqb_spec (Zfloor (r + / 2)) 0) as [E|E]; simpl.
    + destruct (Rltb r 0); simpl; rewrite ?E; auto.
    + auto.
  - split; auto. symmetry. apply (f_equal IZR (y := 0%Z)).
    apply Zfloor_eq; simpl; lra.
Qed.


(** ** calculateHeatingLoad *)


Lemma roundR_IZR (z : Z) : roundR (IZR z) = IZR z.
Proof.
  unfold roundR. f_equal. apply Zfloor_eq. lra.
Qed.

(** ** calculateFireHydrantFlow *)

Lemma min_Fin (a b : R) : Math.min (Fin a) (Fin b) = Fin (Rmin a b).
Proof. unfold Math.min, Rmin; num_crush; f_equal; lra. Qed.

Lemma max_Fin (a b : R) : Math.max (Fin a) (Fin b) = Fin (Rmax a b).
Proof. unfold Math.max, Rmax; num_crush; f_equal; lra. Qed.

Lemma round_Fin (a : R) : 0 <= a -> Math.round (Fin a) = Fin (roundR a).
Proof.
  intros Ha. unfold Math.round, roundR.
  rewrite (proj2 (Rltb_false a 0) Ha). now rewrite andb_false_r.
Qed.

Lemma roundR_nonneg (a : R) : 0 <= a -> 0 <= roundR a.
Proof.
  intros Ha. unfold roundR. apply (IZR_le 0). apply Zfloor_lub. simpl; lra.
Qed.














(** ** calculateSprinklerSystem *)

Lemma ceil_Fin (a : R) (z : Z) :
  0 < a -> IZR z - 1 < a <= IZR z -> Math.ceil (Fin a) = Fin (IZR z).
Proof.
  intros Ha Hz. unfold Math.ceil. rewrite (Zceil_eq z a Hz).
  rewrite (proj2 (Rltb_false a 0)) by lra. now rewrite andb_false_r.
Qed.

Lemma sprinkler_light_coverage :
  orElse (getProp FireProtection.coverages "Light") 130 = Fin 225.
Proof. simpl. num_crush. Qed.

Lemma sprinkler_headCount_100 (ceilingHeight : num) :
  FireProtection.headCount
    (FireProtection.calculateSprinklerSystem 100 "Light" ceilingHeight) = Fin 1.
Proof.
  unfold FireProtection.calculateSprinklerSystem, FireProtection.headCount.
  rewrite sprinkler_light_coverage. rewrite div_Fin by lra.
  apply (ceil_Fin _ 1); lra.
Qed.

Lemma sprinkler_headCount_1000 (ceilingHeight : num) :
  FireProtection.headCount
    (FireProtection.calculateSprinklerSystem 1000 "Light" ceilingHeight) = Fin 5.
Proof.
  unfold FireProtection.calculateSprinklerSystem, FireProtection.headCount.
  rewrite sprinkler_light_coverage. rewrite div_Fin by lra.
  apply (ceil_Fin _ 5); lra.
Qed.

(** ** Addition of numbers *)





(** ** Objects: enumeration is a rearrangement of the properties *)

Section EntriesFacts.
Context {V : Type}.



Lemma getProp_None (o : object V) (k : string) :
  ~ In k (map fst o) -> getProp o k = None.
Proof.
  induction o as [|[k' v] o IH]; simpl; [reflexivity|]. intros H.
  destruct (String.eqb_spec k' k); [tauto | apply IH; tauto].
Qed.




End EntriesFacts.



(** ** calculateTotalFixtureUnits *)














(** ** Ladder exhaustion and membership *)

Lemma beyond (m t : R) (x : num) :
  lt (Fin m) x = true -> t <= m -> (Fin t >= x)%js = false.
Proof. intros H Ht. destruct x; num_crush. Qed.

Lemma pick_beyond (x : num) (l : list (R * R)) (d m : R) :
  lt (Fin m) x = true -> Forall (fun p => fst p <= m) l -> pick x l d = d.
Proof.
  intros Hx Hl. apply pick_none. revert Hl. apply Forall_impl.
  intros p Hp. now apply (beyond m).
Qed.

Lemma breakerLadder_bound : Forall (fun p => fst p <= 1200) (map twice breakerLadder).
Proof. repeat constructor; simpl; lra. Qed.

Lemma drainLadder_bound : Forall (fun p => fst p <= 3900) drainLadder.
Proof. repeat constructor; simpl; lra. Qed.

Lemma pipeLadder_bound : Forall (fun p => fst p <= 12) (map twice pipeLadder).
Proof. repeat constructor; simpl; lra. Qed.

Lemma in_map_Fin (r : R) (l : list R) : In r l -> In (Fin r) (map Fin l).
Proof. apply in_map. Qed.

Lemma pick_twice_in (x : num) (l : list R) (d : R) :
  In d l -> In (pick x (map twice l) d) l.
Proof.
  intros Hd. destruct (pick_in x (map twice l) d) as [->|H]; [exact Hd|].
  rewrite map_map in H. simpl in H. now rewrite map_id in H.
Qed.

(** *** calculateBreakerSize *)

Lemma breakerRequirement_mono (c1 c2 : num) (isContinuous : bool) :
  le c1 c2 = true ->
  le (breakerRequirement c1 isContinuous) (breakerRequirement c2 isContinuous)
  = true.
Proof.
  intros H. unfold breakerRequirement. destruct isContinuous; [|exact H].
  apply div_pos_mono; [lra | exact H].
Qed.

Lemma calculateBreakerSize_mono (c1 c2 : num) (isContinuous : bool) :
  le c1 c2 = true ->
  le (Electrical.calculateBreakerSize c1 isContinuous)
     (Electrical.calculateBreakerSize c2 isContinuous) = true.
Proof.
  intros H. rewrite !calculateBreakerSize_pick. apply le_Fin.
  apply pick_mono; [exact breakerLadder_rising|].
  now apply breakerRequirement_mono.
Qed.

Lemma calculateBreakerSize_ladder (current : num) (isContinuous : bool) :
  In (Electrical.calculateBreakerSize current isContinuous)
     Electrical.standardSizes.
Proof.
  rewrite calculateBreakerSize_pick. apply in_map_Fin.
  apply pick_twice_in. unfold breakerLadder. simpl. tauto.
Qed.

Lemma calculateBreakerSize_exhausted (current : num) (isContinuous : bool) :
  lt (Fin 1200) (breakerRequirement current isContinuous) = true ->
  Electrical.calculateBreakerSize current isContinuous = Fin 1200.
Proof.
  intros H. rewrite calculateBreakerSize_pick. f_equal.
  apply (pick_beyond _ _ _ 1200 H). exact breakerLadder_bound.
Qed.

(** *** calculateDrainPipeSize *)

Lemma calculateDrainPipeSize_pick (drainageFixtureUnits slope : num) :
  Plumbing.calculateDrainPipeSize drainageFixtureUnits slope
  = NumText (Fin (pick (drainRequirement drainageFixtureUnits slope)
                       drainLadder 12))
            inchMark.
Proof.
  unfold Plumbing.calculateDrainPipeSize. f_equal.
  apply (orElse_find
           (fun p => {| Plumbing.size := Fin (snd p); Plumbing.dfu := Fin (fst p) |})
           Plumbing.dfu Plumbing.size _ drainLadder 12).
  unfold drainLadder. repeat constructor; simpl; lra.
Qed.

Lemma calculateDrainPipeSize_ladder (drainageFixtureUnits slope : num) :
  exists cap, In cap Plumbing.drainCapacities /\
    Plumbing.calculateDrainPipeSize drainageFixtureUnits slope
    = NumText (Plumbing.size cap) inchMark.
Proof.
  rewrite calculateDrainPipeSize_pick.
  destruct (pick_in (drainRequirement drainageFixtureUnits slope) drainLadder 12)
    as [->|H].
  - exists {| Plumbing.size := 12; Plumbing.dfu := 3900 |}.
    split; [simpl; tauto | reflexivity].
  - apply in_map_iff in H. destruct H as ((t, s) & Hs & Hin). simpl in Hs.
    exists {| Plumbing.size := Fin s; Plumbing.dfu := Fin t |}.
    split; [|now rewrite Hs].
    change Plumbing.drainCapacities
      with (map (fun p => {| Plumbing.size := Fin (snd p);
                             Plumbing.dfu := Fin (fst p) |}) drainLadder).
    now apply (in_map (fun p => {| Plumbing.size := Fin (snd p);
                                   Plumbing.dfu := Fin (fst p) |})) in Hin.
Qed.

Lemma calculateDrainPipeSize_exhausted (drainageFixtureUnits slope : num) :
  lt (Fin 3900) (drainRequirement drainageFixtureUnits slope) = true ->
  Plumbing.calculateDrainPipeSize drainageFixtureUnits slope
  = NumText (Fin 12) inchMark.
Proof.
  intros H. rewrite calculateDrainPipeSize_pick. do 2 f_equal.
  apply (pick_beyond _ _ _ 3900 H). exact drainLadder_bound.
Qed.

Lemma slopeFactor_cases (slope : num) :
  slope <> NZero ->
  (exists c, 0 < c /\ Math.sqrt (slope / 0.25) = Fin c)
  \/ Math.sqrt (slope / 0.25) = Fin 0
  \/ Math.sqrt (slope / 0.25) = PInf
  \/ Math.sqrt (slope / 0.25) = NaN.
Proof.
  intros Hs. destruct slope as [r| | | |]; [ | tauto | | | ].
  - destruct (Rlt_dec r 0) as [Hneg|Hpos].
    + right; right; right. unfold Math.sqrt. num_crush.
      all: exfalso; unfold Rdiv in *; lra.
    + destruct (Req_dec_T r 0) as [->|Hnz].
      * right; left. unfold Math.sqrt. num_crush. now rewrite sqrt_0.
      * left. exists (sqrt (r / 0.25)). split.
        -- apply sqrt_lt_R0. unfold Rdiv. lra.
        -- rewrite div_Fin by lra. apply sqrt_Fin. unfold Rdiv. lra.
  - right; right; left. unfold Math.sqrt. num_crush.
  - right; right; right. unfold Math.sqrt. num_crush.
  - right; right; right. reflexivity.
Qed.

Lemma pick_first (x : num) (p : R * R) (l : list (R * R)) (d : R) :
  rising (p :: l) d -> snd p <= pick x (p :: l) d.
Proof.
  intros H. rewrite pick_cons. destruct (_ >= _)%js; [lra|].
  now apply rising_lower.
Qed.

Lemma pick_NaN (l : list (R * R)) (d : R) : pick NaN l d = d.
Proof. apply pick_none. apply Forall_forall. intros p _. reflexivity. Qed.

Lemma pick_PInf (l : list (R * R)) (d : R) : pick PInf l d = d.
Proof. apply pick_none. apply Forall_forall. intros p _. reflexivity. Qed.

(** With a fixed slope other than -0, the drain size does not decrease
    when the (finite) drainage fixture units grow. *)
Lemma drain_pick_mono (d1 d2 slope : num) :
  finite d1 -> finite d2 -> slope <> NZero -> le d1 d2 = true ->
  pick (drainRequirement d1 slope) drainLadder 12
  <= pick (drainRequirement d2 slope) drainLadder 12.
Proof.
  intros F1 F2 Hs Hd. unfold drainRequirement.
  destruct (slopeFactor_cases slope Hs) as [(c & Hc & ->) | [-> | [-> | ->]]].
  - apply pick_mono; [exact drainLadder_rising|].
    now apply div_pos_mono.
  - assert (Hlow : forall x, 1.5 <= pick x drainLadder 12).
    { intros x. apply (pick_first x (3, 1.5)). exact drainLadder_rising. }
    assert (Hup : forall x, pick x drainLadder 12 <= 12).
    { intros x. apply rising_le. exact drainLadder_rising. }
    assert (Hbig : forall d, finite d -> le (Fin 0) d = true ->
                             pick (d / Fin 0)%js drainLadder 12 = 12).
    { intros d Fd H0. destruct d as [r| | | |]; simpl in Fd; try tauto.
      - apply le_Fin in H0. destruct (Req_dec_T r 0) as [->|Hr].
        + replace (Fin 0 / Fin 0)%js with NaN by num_crush. apply pick_NaN.
        + replace (Fin r / Fin 0)%js with PInf by num_crush. apply pick_PInf.
      - replace (NZero / Fin 0)%js with NaN by num_crush. apply pick_NaN. }
    destruct (le (Fin 0) d1) eqn:E1.
    + rewrite (Hbig d1 F1 E1), (Hbig d2 F2 (le_trans _ _ _ E1 Hd)). lra.
    + assert (E : (d1 / Fin 0)%js = NInf).
      { destruct d1; simpl in F1; try tauto; num_crush. }
      rewrite E. replace (pick NInf drainLadder 12) with 1.5; [apply Hlow|].
      unfold drainLadder. now rewrite pick_cons.
  - assert (E : forall d, finite d -> pick (d / PInf)%js drainLadder 12 = 1.5).
    { intros d Fd. unfold drainLadder. rewrite pick_cons.
      replace (Fin (fst (3, 1.5)) >= d / PInf)%js with true; [reflexivity|].
      destruct d; simpl in Fd; try tauto; num_crush. }
    rewrite (E d1 F1), (E d2 F2). lra.
  - assert (E : forall d, (d / NaN)%js = NaN).
    { intros d. destruct d; reflexivity. }
    rewrite !E. lra.
Qed.

Lemma calculateDrainPipeSize_mono (d1 d2 slope : num) :
  finite d1 -> finite d2 -> slope <> NZero -> le d1 d2 = true ->
  le (number (Plumbing.calculateDrainPipeSize d1 slope))
     (number (Plumbing.calculateDrainPipeSize d2 slope)) = true.
Proof.
  intros. rewrite !calculateDrainPipeSize_pick. simpl number.
  apply le_Fin. now apply drain_pick_mono.
Qed.

(** *** calculatePipeSize *)

Lemma diameterR_inner_nonneg (g : R) :
  0 <= g -> 0 <= 4 * (g / (7.48 * 60) / 5) / PI.
Proof.
  intros Hg. pose proof PI_gt_3.
  apply div_nonneg; [|lra].
  assert (0 <= g / (7.48 * 60)) by (apply div_nonneg; lra).
  assert (0 <= g / (7.48 * 60) / 5) by (apply div_nonneg; lra).
  lra.
Qed.

Lemma diameterR_nonneg (g : R) : 0 <= diameterR g.
Proof. unfold diameterR. pose proof (sqrt_pos (4 * (g / (7.48 * 60) / 5) / PI)). lra. Qed.

Lemma diameterR_mono (g g' : R) : 0 <= g -> g <= g' -> diameterR g <= diameterR g'.
Proof.
  intros Hg Hgg'. unfold diameterR. pose proof PI_gt_3.
  apply Rmult_le_compat_r; [lra|]. apply sqrt_le_1.
  - now apply diameterR_inner_nonneg.
  - apply diameterR_inner_nonneg; lra.
  - apply div_le_compat; [lra|].
    apply Rmult_le_compat_l; [lra|].
    apply div_le_compat; [lra|]. apply div_le_compat; lra.
Qed.

Lemma diameter_of_flow (g : R) :
  0 <= g ->
  (Math.sqrt (4 * (Fin g / (7.48 * 60) / Fin 5) / Math.PI) * 12)%js
  = Fin (diameterR g).
Proof.
  intros Hg. pose proof PI_gt_3. unfold Math.PI, diameterR.
  rewrite (mul_Fin 7.48 60) by lra.
  assert (0 <= g / (7.48 * 60)) by (apply div_nonneg; lra).
  assert (0 <= g / (7.48 * 60) / 5) by (apply div_nonneg; lra).
  rewrite (div_Fin g) by lra.
  rewrite (div_Fin (g / (7.48 * 60))) by lra.
  rewrite (mul_Fin 4) by lra.
  rewrite div_Fin by lra.
  rewrite sqrt_Fin by (apply div_nonneg; lra).
  rewrite mul_Fin; [reflexivity | apply sqrt_pos | lra].
Qed.

Lemma requiredDiameter_Fin (x : R) :
  Plumbing.requiredDiameter (Fin x) = Fin (diameterR (gpmR x)).
Proof.
  unfold Plumbing.requiredDiameter. rewrite fixtureUnitsToGPM_Fin.
  apply diameter_of_flow. apply gpmR_nonneg.
Qed.

Lemma fixtureUnitsToGPM_NZero : Plumbing.fixtureUnitsToGPM NZero = Fin (gpmR 0).
Proof.
  rewrite gpmR_zero by lra. unfold Plumbing.fixtureUnitsToGPM.
  replace (NZero <= 0)%js with true by (symmetry; num_crush). reflexivity.
Qed.

Lemma fixtureUnitsToGPM_finite (fu : num) :
  finite fu -> Plumbing.fixtureUnitsToGPM fu = Fin (gpmR (val fu)).
Proof.
  destruct fu; simpl; try tauto; intros _.
  - apply fixtureUnitsToGPM_Fin.
  - apply fixtureUnitsToGPM_NZero.
Qed.

Lemma requiredDiameter_finite (fu : num) :
  finite fu -> Plumbing.requiredDiameter fu = Fin (diameterR (gpmR (val fu))).
Proof.
  intros H. unfold Plumbing.requiredDiameter.
  rewrite (fixtureUnitsToGPM_finite fu H).
  apply diameter_of_flow. apply gpmR_nonneg.
Qed.

Lemma baseSize_pick (fu : num) :
  baseSize fu
  = Fin (pick (Plumbing.requiredDiameter fu) (map twice pipeLadder) 0.5).
Proof.
  unfold baseSize. change (elemAt _ _) with (Fin 0.5).
  exact (orElse_find_num _ pipeLadder 0.5 pipeLadder_nonzero).
Qed.

Lemma calculatePipeSize_eq (fu length pressureAvailable : num) :
  Plumbing.calculatePipeSize fu length pressureAvailable
  = NumText (if Plumbing.pressureLossTooHigh fu length pressureAvailable
             then nextSize (baseSize fu) else baseSize fu)
            inchMark.
Proof.
  unfold Plumbing.calculatePipeSize, Plumbing.pressureLossTooHigh, baseSize,
    nextSize, Plumbing.requiredDiameter.
  cbv zeta. reflexivity.
Qed.

Lemma strictEq_Fin (a b : R) : (Fin a === Fin b)%js = Reqb a b.
Proof. num_crush. Qed.

Lemma indexOfFrom_cons (y x : R) (rest : list num) (i : Z) :
  indexOfFrom (Fin y :: rest) (Fin x) i
  = if Reqb y x then i else indexOfFrom rest (Fin x) (i + 1)%Z.
Proof. simpl. now rewrite strictEq_Fin. Qed.

Ltac index_steps :=
  repeat (rewrite indexOfFrom_cons;
          first [ rewrite (proj2 (Reqb_true _ _)) by lra
                | rewrite (proj2 (Reqb_false _ _)) by lra ]).

Lemma nextSize_table :
  Forall (fun p => nextSize (Fin (fst p)) = Fin (snd p)) nextTable.
Proof.
  unfold nextTable.
  repeat constructor; simpl fst; simpl snd;
    unfold nextSize, indexOf, Plumbing.standardSizes; simpl map;
    index_steps; reflexivity.
Qed.

Lemma nextTable_covers (r : R) :
  In r pipeLadder -> exists s, In (r, s) nextTable.
Proof.
  unfold pipeLadder, nextTable. simpl.
  intros H. repeat (destruct H as [<-|H]; [eexists; auto 20|]). contradiction.
Qed.

Lemma nextTable_mono (p q : R * R) :
  In p nextTable -> In q nextTable -> fst p <= fst q -> snd p <= snd q.
Proof.
  unfold nextTable. simpl. intros Hp Hq.
  repeat (destruct Hp as [<-|Hp]);
    try contradiction;
    repeat (destruct Hq as [<-|Hq]); try contradiction; simpl; lra.
Qed.

Lemma nextTable_ladder (p : R * R) :
  In p nextTable -> In (snd p) pipeLadder /\ fst p <= snd p.
Proof.
  unfold nextTable, pipeLadder. simpl. intros Hp.
  repeat (destruct Hp as [<-|Hp]); try contradiction; simpl; split;
    try lra; auto 20.
Qed.

Lemma nextSize_ladder (r : R) :
  In r pipeLadder ->
  exists s, nextSize (Fin r) = Fin s /\ In (r, s) nextTable.
Proof.
  intros Hr. destruct (nextTable_covers r Hr) as (s & Hs). exists s.
  split; [|exact Hs].
  pose proof nextSize_table as H. rewrite Forall_forall in H.
  exact (H (r, s) Hs).
Qed.

Lemma pick_found (x : num) (l : list (R * R)) (d d' : R) (p : R * R) :
  In p l -> (Fin (fst p) >= x)%js = true -> pick x l d = pick x l d'.
Proof.
  induction l as [|q l IH]; intros Hin Hp; [contradiction|].
  rewrite !pick_cons. destruct (Fin (fst q) >= x)%js eqn:E; [reflexivity|].
  destruct Hin as [->|Hin]; [congruence | now apply IH].
Qed.

Lemma baseSize_ladder (fu : num) :
  exists r, baseSize fu = Fin r /\ In r pipeLadder.
Proof.
  rewrite baseSize_pick. eexists; split; [reflexivity|].
  apply pick_twice_in. unfold pipeLadder; simpl; tauto.
Qed.

Lemma calculatePipeSize_ladder (fu length pressureAvailable : num) :
  In (number (Plumbing.calculatePipeSize fu length pressureAvailable))
     Plumbing.standardSizes.
Proof.
  rewrite calculatePipeSize_eq. cbn [number].
  destruct (baseSize_ladder fu) as (r & Hr & Hin). rewrite Hr.
  destruct (Plumbing.pressureLossTooHigh _ _ _).
  - destruct (nextSize_ladder r Hin) as (s & -> & Hs).
    apply in_map_Fin. exact (proj1 (nextTable_ladder _ Hs)).
  - now apply in_map_Fin.
Qed.

(** Beyond the ladder the selection falls back to its first entry. *)
Lemma baseSize_exhausted (fu : num) :
  lt (Fin 12) (Plumbing.requiredDiameter fu) = true -> baseSize fu = Fin 0.5.
Proof.
  intros H. rewrite baseSize_pick. f_equal.
  apply (pick_beyond _ _ _ 12 H). exact pipeLadder_bound.
Qed.

Lemma nextSize_half : nextSize (Fin 0.5) = Fin 0.75.
Proof.
  pose proof nextSize_table as H. unfold nextTable in H.
  now inversion H.
Qed.

Lemma calculatePipeSize_exhausted (fu length pressureAvailable : num) :
  lt (Fin 12) (Plumbing.requiredDiameter fu) = true ->
  Plumbing.calculatePipeSize fu length pressureAvailable
  = NumText (Fin 0.5) inchMark
  \/ Plumbing.calculatePipeSize fu length pressureAvailable
     = NumText (Fin 0.75) inchMark.
Proof.
  intros H. rewrite calculatePipeSize_eq, (baseSize_exhausted fu H).
  destruct (Plumbing.pressureLossTooHigh _ _ _).
  - right. now rewrite nextSize_half.
  - now left.
Qed.

Lemma le_finite_val (a b : num) :
  finite a -> finite b -> le a b = true -> val a <= val b.
Proof. destruct a, b; simpl; try tauto; intros _ _ H; num_crush. Qed.

(** Within the ladder, and when the pressure-loss test does not separate
    the two inputs, the pipe size does not decrease with the fixture
    units. *)
Lemma calculatePipeSize_mono (fu1 fu2 length pressureAvailable : num) :
  finite fu1 -> finite fu2 -> le fu1 fu2 = true ->
  (Plumbing.requiredDiameter fu2 <= 12)%js = true ->
  (Plumbing.pressureLossTooHigh fu1 length pressureAvailable = true ->
   Plumbing.pressureLossTooHigh fu2 length pressureAvailable = true) ->
  le (number (Plumbing.calculatePipeSize fu1 length pressureAvailable))
     (number (Plumbing.calculatePipeSize fu2 length pressureAvailable)) = true.
Proof.
  intros F1 F2 Hle H12 Hbump.
  assert (Hd : le (Plumbing.requiredDiameter fu1) (Plumbing.requiredDiameter fu2)
               = true).
  { rewrite !requiredDiameter_finite by assumption. apply le_Fin.
    apply diameterR_mono; [apply gpmR_nonneg|].
    apply gpmR_mono. now apply le_finite_val. }
  assert (Hin : In (twice 12) (map twice pipeLadder)).
  { apply in_map. unfold pipeLadder; simpl; tauto. }
  assert (Hb : exists r1 r2, baseSize fu1 = Fin r1 /\ baseSize fu2 = Fin r2
                             /\ In r1 pipeLadder /\ In r2 pipeLadder /\ r1 <= r2).
  { exists (pick (Plumbing.requiredDiameter fu1) (map twice pipeLadder) 12),
           (pick (Plumbing.requiredDiameter fu2) (map twice pipeLadder) 12).
    rewrite !baseSize_pick.
    rewrite (pick_found _ _ 0.5 12 _ Hin (le_trans _ _ _ Hd H12)).
    rewrite (pick_found _ _ 0.5 12 _ Hin H12).
    repeat split.
    - apply pick_twice_in. unfold pipeLadder; simpl; tauto.
    - apply pick_twice_in. unfold pipeLadder; simpl; tauto.
    - apply pick_mono; [exact pipeLadder_rising | exact Hd]. }
  destruct Hb as (r1 & r2 & E1 & E2 & I1 & I2 & Hr).
  rewrite !calculatePipeSize_eq. cbn [number]. rewrite E1, E2.
  destruct (nextSize_ladder r1 I1) as (s1 & N1 & T1).
  destruct (nextSize_ladder r2 I2) as (s2 & N2 & T2).
  destruct (Plumbing.pressureLossTooHigh fu1 _ _) eqn:B1.
  - rewrite (Hbump eq_refl), N1, N2. apply le_Fin.
    exact (nextTable_mono _ _ T1 T2 Hr).
  - destruct (Plumbing.pressureLossTooHigh fu2 _ _).
    + rewrite N2. apply le_Fin.
      pose proof (proj2 (nextTable_ladder _ T2)). simpl in *. lra.
    + now apply le_Fin.
Qed.

(** *** calculateFrictionLoss and the pressure-loss test *)

Lemma headLoss_pos (q d : R) :
  0 < 4.52 * Rpower q 1.85 / (Rpower 140 1.85 * Rpower d 4.87).
Proof.
  pose proof (Rpower_pos q 1.85). pose proof (Rpower_pos 140 1.85).
  pose proof (Rpower_pos d 4.87).
  apply Rdiv_lt_0_compat; [lra|]. now apply Rmult_lt_0_compat.
Qed.

Lemma calculateFrictionLoss_Fin (q d : R) (length : num) :
  0 < q -> 0 < d ->
  Plumbing.calculateFrictionLoss (Fin q) (Fin d) length = Fin (frictionR q d).
Proof.
  intros Hq Hd. unfold Plumbing.calculateFrictionLoss, frictionR. cbv zeta.
  pose proof (Rpower_pos q 1.85). pose proof (Rpower_pos 140 1.85).
  pose proof (Rpower_pos d 4.87). pose proof (headLoss_pos q d) as Hh.
  rewrite !pow_Fin by lra.
  rewrite (mul_Fin 4.52) by lra.
  rewrite (mul_Fin (Rpower 140 1.85)) by lra.
  rewrite div_Fin by (try apply Rmult_lt_0_compat; lra).
  set (h := 4.52 * Rpower q 1.85 / (Rpower 140 1.85 * Rpower d 4.87)) in *.
  rewrite (mul_Fin h) by lra.
  rewrite (mul_Fin (h * 0.433)) by lra.
  rewrite round_Fin by lra.
  rewrite div_Fin; [reflexivity | apply roundR_nonneg; lra | lra].
Qed.

Lemma frictionR_nonneg (q d : R) : 0 <= frictionR q d.
Proof.
  unfold frictionR. pose proof (headLoss_pos q d).
  apply div_nonneg; [|lra]. apply roundR_nonneg. lra.
Qed.

Lemma gpmR_pos (x : R) : 0 < x -> 0 < gpmR x.
Proof.
  intros Hx. rewrite <- (gpmR_zero 0) by lra. apply gpmR_strict; lra.
Qed.

Lemma diameterR_pos (g : R) : 0 < g -> 0 < diameterR g.
Proof.
  intros Hg. unfold diameterR. pose proof PI_gt_3.
  assert (0 < 4 * (g / (7.48 * 60) / 5) / PI).
  { apply Rdiv_lt_0_compat; [|lra].
    assert (0 < g / (7.48 * 60)) by (apply Rdiv_lt_0_compat; lra).
    assert (0 < g / (7.48 * 60) / 5) by (apply Rdiv_lt_0_compat; lra).
    lra. }
  pose proof (sqrt_lt_R0 _ H0). lra.
Qed.

(** The pressure-loss test for positive fixture units and non-negative
    length and pressure. *)
Lemma pressureLossTooHigh_Fin (x len p : R) :
  0 < x -> 0 <= len -> 0 <= p ->
  Plumbing.pressureLossTooHigh (Fin x) (Fin len) (Fin p)
  = Rltb (p * 0.5) (frictionR (gpmR x) (diameterR (gpmR x)) * len / 100).
Proof.
  intros Hx Hl Hp. unfold Plumbing.pressureLossTooHigh. cbv zeta.
  rewrite requiredDiameter_Fin, fixtureUnitsToGPM_Fin.
  rewrite calculateFrictionLoss_Fin
    by (try apply diameterR_pos; now apply gpmR_pos).
  pose proof (frictionR_nonneg (gpmR x) (diameterR (gpmR x))) as Hf.
  set (f := frictionR _ _) in *.
  rewrite (mul_Fin f) by lra.
  rewrite div_Fin by (try apply Rmult_le_pos; lra).
  rewrite (mul_Fin p) by lra.
  reflexivity.
Qed.

Lemma roundR_bounds (r : R) : r - / 2 < roundR r <= r + / 2.
Proof.
  unfold roundR. pose proof (Zfloor_bound (r + / 2)). lra.
Qed.

(** *** Bounds for concrete evaluations *)

Lemma div_lt_upper (a b c : R) : 0 < b -> a < c * b -> a / b < c.
Proof.
  intros Hb H. apply Rmult_lt_reg_r with b; [exact Hb|].
  unfold Rdiv. rewrite Rmult_assoc, Rinv_l; lra.
Qed.

Lemma div_gt_lower (a b c : R) : 0 < b -> c * b < a -> c < a / b.
Proof.
  intros Hb H. apply Rmult_lt_reg_r with b; [exact Hb|].
  unfold Rdiv. rewrite Rmult_assoc, Rinv_l; lra.
Qed.

Lemma sqrt_lt_upper (x u : R) : 0 <= x -> 0 < u -> x < u * u -> sqrt x < u.
Proof.
  intros Hx Hu H. rewrite <- (sqrt_square u) by lra.
  apply sqrt_lt_1; nra.
Qed.

Lemma sqrt_gt_lower (x l : R) : 0 <= l -> l * l < x -> l < sqrt x.
Proof.
  intros Hl H. rewrite <- (sqrt_square l) at 1 by lra.
  apply sqrt_lt_1; nra.
Qed.

Lemma diameterR_upper (g u : R) :
  0 <= g -> 0 < u -> 4 * g < 3 * (7.48 * 60 * 5) * (u / 12 * (u / 12)) ->
  diameterR g < u.
Proof.
  intros Hg Hu H. unfold diameterR. pose proof PI_gt_3.
  assert (sqrt (4 * (g / (7.48 * 60) / 5) / PI) < u / 12); [|lra].
  apply sqrt_lt_upper; [now apply diameterR_inner_nonneg | lra |].
  apply div_lt_upper; [lra|].
  assert (0 <= u / 12 * (u / 12)) by nra.
  apply Rlt_le_trans with (u / 12 * (u / 12) * 3); [|nra].
  lra.
Qed.

Lemma diameterR_lower (g l : R) :
  0 <= g -> 0 <= l -> 4 * (7.48 * 60 * 5) * (l / 12 * (l / 12)) < 4 * g ->
  l < diameterR g.
Proof.
  intros Hg Hl H. unfold diameterR. pose proof PI_gt_3. pose proof PI_4.
  assert (l / 12 < sqrt (4 * (g / (7.48 * 60) / 5) / PI)); [|lra].
  apply sqrt_gt_lower; [lra|].
  apply div_gt_lower; [lra|].
  assert (0 <= l / 12 * (l / 12)) by nra.
  apply Rle_lt_trans with (l / 12 * (l / 12) * 4); [nra|].
  lra.
Qed.

Lemma Rpower_2 (q : R) : 0 < q -> Rpower q 2 = q * q.
Proof.
  intros Hq. replace 2 with (INR 2) by (simpl; lra).
  rewrite Rpower_pow by exact Hq. simpl. lra.
Qed.

Lemma Rpower_nat (q : R) (n : nat) (y : R) :
  0 < q -> y = INR n -> Rpower q y = q ^ n.
Proof. intros Hq ->. now apply Rpower_pow. Qed.

(** For a base below 1 the power decreases with the exponent. *)
Lemma Rpower_lt_small (d y z : R) :
  0 < d < 1 -> y < z -> Rpower d z < Rpower d y.
Proof.
  intros Hd Hyz. unfold Rpower. apply exp_increasing.
  assert (ln d < 0).
  { rewrite <- ln_1. apply ln_increasing; lra. }
  nra.
Qed.

Lemma hazen_140 : 140 < Rpower 140 1.85 < 19600.
Proof.
  split.
  - rewrite <- (Rpower_1 140) at 1 by lra. apply Rpower_lt; lra.
  - replace 19600 with (Rpower 140 2) by (rewrite Rpower_2; lra).
    apply Rpower_lt; lra.
Qed.

Lemma headLoss_upper (A B C a b c : R) :
  0 < A < a -> 0 < b < B -> 0 < c < C ->
  4.52 * A / (B * C) < 4.52 * a / (b * c).
Proof.
  intros HA HB HC.
  assert (0 < b * c) by nra. assert (b * c < B * C) by nra.
  apply div_lt_upper; [nra|].
  unfold Rdiv. rewrite Rmult_assoc.
  assert (1 < / (b * c) * (B * C)).
  { apply Rmult_lt_reg_l with (b * c); [lra|].
    rewrite <- Rmult_assoc, Rinv_r; lra. }
  nra.
Qed.

Lemma frictionR_le (q d hU : R) :
  4.52 * Rpower q 1.85 / (Rpower 140 1.85 * Rpower d 4.87) < hU ->
  frictionR q d <= (hU * 43.3 + / 2) / 100.
Proof.
  intros H. unfold frictionR.
  set (h := 4.52 * Rpower q 1.85 / (Rpower 140 1.85 * Rpower d 4.87)) in *.
  pose proof (roundR_bounds (h * 0.433 * 100)). lra.
Qed.

Lemma frictionR_ge (q d hL : R) :
  hL < 4.52 * Rpower q 1.85 / (Rpower 140 1.85 * Rpower d 4.87) ->
  (hL * 43.3 - / 2) / 100 <= frictionR q d.
Proof.
  intros H. unfold frictionR.
  set (h := 4.52 * Rpower q 1.85 / (Rpower 140 1.85 * Rpower d 4.87)) in *.
  pose proof (roundR_bounds (h * 0.433 * 100)). lra.
Qed.

Lemma headLoss_lower (A B C a b c : R) :
  0 < a < A -> 0 < B < b -> 0 < C < c ->
  4.52 * a / (b * c) < 4.52 * A / (B * C).
Proof.
  intros HA HB HC.
  assert (0 < B * C) by nra. assert (B * C < b * c) by nra.
  apply div_lt_upper; [nra|].
  unfold Rdiv. rewrite Rmult_assoc.
  assert (/ (B * C) * (b * c) > 1).
  { apply Rmult_lt_reg_l with (B * C); [lra|].
    rewrite <- Rmult_assoc, Rinv_r; lra. }
  nra.
Qed.

Lemma gpmR_large (x : R) : 200 < x -> gpmR x = Rpower x 0.35 * 20.
Proof. intros; unfold gpmR; rdec; lra. Qed.

Lemma gpmR_small (x : R) : 0 < x <= 10 -> gpmR x = sqrt x * 3.5.
Proof. intros; unfold gpmR; rdec; lra. Qed.

(** **** One million fixture units *)

Lemma gpm_million : 2260 < gpmR 1000000 < 2600.
Proof.
  rewrite gpmR_large by lra.
  assert (113 < Rpower 1000000 0.35).
  { apply (Rpower_above 1000000 0.35 113 7 20); [lra | lra | lia | frac_side | lra]. }
  assert (Rpower 1000000 0.35 < 130).
  { apply (Rpower_below 1000000 0.35 130 7 20); [lra | lra | lia | frac_side | lra]. }
  lra.
Qed.

Lemma diameter_million : 12 < diameterR (gpmR 1000000).
Proof.
  pose proof gpm_million. apply diameterR_lower; lra.
Qed.

Lemma friction_million :
  frictionR (gpmR 1000000) (diameterR (gpmR 1000000)) <= 5.
Proof.
  pose proof gpm_million as Hg. pose proof diameter_million as Hd.
  set (g := gpmR 1000000) in *. set (d := diameterR g) in *.
  pose proof hazen_140 as HB.
  assert (HA : 0 < Rpower g 1.85 < 2600 * 2600).
  { split; [apply Rpower_pos|].
    apply Rlt_trans with (Rpower g 2); [apply Rpower_lt; lra|].
    rewrite Rpower_2 by lra. nra. }
  assert (HC : 0 < 20000 < Rpower d 4.87).
  { split; [lra|].
    apply Rlt_trans with (Rpower d 4); [|apply Rpower_lt; lra].
    rewrite (Rpower_nat d 4) by (simpl; lra).
    assert (144 < d * d) by nra. simpl. nra. }
  assert (HB' : 0 < 140 < Rpower 140 1.85) by lra.
  pose proof (headLoss_upper _ _ _ _ _ _ HA HB' HC) as H.
  apply frictionR_le in H. lra.
Qed.

Lemma tooHigh_million :
  Plumbing.pressureLossTooHigh 1000000 100 50 = false.
Proof.
  rewrite pressureLossTooHigh_Fin by lra. apply Rltb_false.
  pose proof friction_million. lra.
Qed.

Lemma pipe_million :
  Plumbing.calculatePipeSize 1000000 100 50 = NumText (Fin 0.5) inchMark.
Proof.
  rewrite calculatePipeSize_eq, tooHigh_million.
  rewrite baseSize_exhausted; [reflexivity|].
  rewrite requiredDiameter_Fin. apply lt_Fin. exact diameter_million.
Qed.

(** **** Half a fixture unit *)

Lemma gpm_half : 2.45 < gpmR 0.5 < 2.485.
Proof.
  rewrite gpmR_small by lra.
  assert (0.7 < sqrt 0.5) by (apply sqrt_gt_lower; lra).
  assert (sqrt 0.5 < 0.71) by (apply sqrt_lt_upper; lra).
  lra.
Qed.

Lemma diameter_half : 0.396 < diameterR (gpmR 0.5) < 0.462.
Proof.
  pose proof gpm_half. split.
  - apply diameterR_lower; lra.
  - apply diameterR_upper; lra.
Qed.

Lemma friction_half : frictionR (gpmR 0.5) (diameterR (gpmR 0.5)) <= 10.
Proof.
  pose proof gpm_half as Hg. pose proof diameter_half as Hd.
  set (g := gpmR 0.5) in *. set (d := diameterR g) in *.
  pose proof hazen_140 as HB.
  assert (HA : 0 < Rpower g 1.85 < 6.176).
  { split; [apply Rpower_pos|].
    apply Rlt_trans with (Rpower g 2); [apply Rpower_lt; lra|].
    rewrite Rpower_2 by lra. nra. }
  assert (HC : 0 < 0.009 < Rpower d 4.87).
  { split; [lra|].
    apply Rlt_trans with (Rpower d 5); [|apply Rpower_lt_small; lra].
    rewrite (Rpower_nat d 5) by (simpl; lra).
    apply Rlt_le_trans with (0.396 ^ 5); [lra|].
    apply pow_incr. lra. }
  assert (HB' : 0 < 140 < Rpower 140 1.85) by lra.
  pose proof (headLoss_upper _ _ _ _ _ _ HA HB' HC) as H.
  apply frictionR_le in H. lra.
Qed.

Lemma pipe_half :
  Plumbing.calculatePipeSize 0.5 100 50 = NumText (Fin 0.5) inchMark.
Proof.
  rewrite calculatePipeSize_eq.
  rewrite pressureLossTooHigh_Fin by lra.
  rewrite (proj2 (Rltb_false _ _)) by (pose proof friction_half; lra).
  rewrite baseSize_pick, requiredDiameter_Fin. do 2 f_equal.
  unfold pipeLadder. simpl map. rewrite pick_cons. cbn [fst snd twice].
  replace (Fin 0.5 >= Fin (diameterR (gpmR 0.5)))%js with true; [reflexivity|].
  symmetry. apply le_Fin. pose proof diameter_half. lra.
Qed.

(** **** A vanishing demand: 1e-40 fixture units *)

Lemma gpm_tiny : gpmR 1e-40 = 3.5e-20.
Proof.
  rewrite gpmR_small by lra.
  replace 1e-40 with (1e-20 * 1e-20) by lra. rewrite sqrt_square by lra. lra.
Qed.

Lemma diameter_tiny : 0 < diameterR (gpmR 1e-40) < 1e-10.
Proof.
  rewrite gpm_tiny. split.
  - apply diameterR_pos. lra.
  - apply diameterR_upper; lra.
Qed.

Lemma friction_tiny : 50 <= frictionR (gpmR 1e-40) (diameterR (gpmR 1e-40)).
Proof.
  pose proof diameter_tiny as Hd. rewrite gpm_tiny in *.
  set (d := diameterR 3.5e-20) in *.
  pose proof hazen_140 as HB.
  assert (HA : 0 < 1.2e-39 < Rpower 3.5e-20 1.85).
  { split; [lra|].
    apply Rlt_trans with (Rpower 3.5e-20 2); [|apply Rpower_lt_small; lra].
    rewrite Rpower_2 by lra. lra. }
  assert (HC : 0 < Rpower d 4.87 < 2e-45).
  { split; [apply Rpower_pos|].
    apply Rlt_trans with (Rpower d 4.5); [apply Rpower_lt_small; lra|].
    apply Rle_lt_trans with (Rpower 1e-10 4.5); [apply Rle_Rpower_l; lra|].
    apply (Rpower_below 1e-10 4.5 2e-45 9 2); [lra | lra | lia | frac_side | lra]. }
  assert (HB' : 0 < Rpower 140 1.85 < 19600) by lra.
  pose proof (headLoss_lower _ _ _ _ _ _ HA HB' HC) as H.
  apply frictionR_ge in H. lra.
Qed.

Lemma pipe_tiny :
  Plumbing.calculatePipeSize 1e-40 100 50 = NumText (Fin 0.75) inchMark.
Proof.
  rewrite calculatePipeSize_eq.
  rewrite pressureLossTooHigh_Fin by lra.
  rewrite (proj2 (Rltb_true _ _)) by (pose proof friction_tiny; lra).
  rewrite baseSize_pick, requiredDiameter_Fin.
  replace (pick _ _ _) with 0.5; [now rewrite nextSize_half|].
  unfold pipeLadder. simpl map. rewrite pick_cons. cbn [fst snd twice].
  replace (Fin 0.5 >= Fin (diameterR (gpmR 1e-40)))%js with true; [reflexivity|].
  symmetry. apply le_Fin. pose proof diameter_tiny. lra.
Qed.

(** *** calculateWireSize: exhaustion, and the order of the loop *)

Lemma calculateWireSize_exhausted (current : num) (material : string) (tempRating : num) :
  (Fin (materialAmpacity material 545) * wireTempFactor tempRating
   < wireRequirement current)%js = true ->
  Electrical.calculateWireSize current material tempRating = "1000 kcmil".
Proof.
  intros H.
  assert (H545 : wireFits material tempRating current 545 = false).
  { unfold wireFits, ge.
    destruct (wireTempFactor_pos tempRating) as (tf & E & Htf).
    rewrite E in *. revert H. generalize (wireRequirement current).
    intros req.
    pose proof (materialAmpacity_nonneg material 545 ltac:(lra)) as Hm.
    unfold mul, isNaN, isInf, isZero, sgn, val, Rltb, Reqb.
    destruct (Req_dec_T (materialAmpacity material 545) 0) as [->|Hne];
      simpl; [destruct (Rlt_dec 0 0); [lra|] | ];
      destruct (Req_dec_T tf 0); try lra; simpl;
      try (destruct (Rlt_dec tf 0); [lra|]); simpl;
      destruct req; num_crush. }
  rewrite calculateWireSize_choice. unfold wireChoice.
  rewrite !(fun a Ha => wireFits_false material tempRating current a 545 H545 Ha)
    by lra.
  reflexivity.
Qed.

Lemma wireTempFactor_75 : wireTempFactor 75 = Fin 1.0.
Proof.
  unfold wireTempFactor, Electrical.tempFactors, getNumProp.
  rewrite !strictEq_Fin.
  rewrite (proj2 (Reqb_false 60 75)) by lra.
  rewrite (proj2 (Reqb_true 75 75)) by lra.
  unfold orElse, orDefault, truthy, isNaN, isZero.
  now rewrite (proj2 (Reqb_false 1.0 0)) by lra.
Qed.

Lemma wireFits_copper_75 (current copper : R) :
  0 <= current -> 0 <= copper ->
  wireFits "copper" 75 (Fin current) copper = Rleb (current / 0.8) (copper * 1.0).
Proof.
  intros Hc Ha. unfold wireFits, wireRequirement, materialAmpacity.
  change (String.eqb "copper" "copper") with true. cbv iota.
  rewrite wireTempFactor_75, div_Fin, mul_Fin by lra. reflexivity.
Qed.

Lemma wire_example_code :
  Electrical.calculateWireSize 10 "copper" 75 = "1 AWG".
Proof.
  rewrite calculateWireSize_choice. unfold wireChoice.
  rewrite wireFits_copper_75 by lra.
  now rewrite (proj2 (Rleb_true _ _)) by lra.
Qed.

Lemma wire_example_spec :
  calculateWireSize_spec 10 "copper" 75 = "14 AWG".
Proof.
  unfold calculateWireSize_spec, Electrical.copperAmpacity75C. cbv zeta.
  cbn [map fst snd val]. unfold Electrical.firstFit.
  fold (wireFits "copper" 75 10 20).
  rewrite wireFits_copper_75 by lra.
  now rewrite (proj2 (Rleb_true _ _)) by lra.
Qed.

(** *** Degenerate inputs: a zero voltage, a zero slope *)

Lemma wild_cases (a : num) : wild a = true -> a = NaN \/ a = PInf \/ a = NInf.
Proof. destruct a; simpl; try discriminate; tauto. Qed.

Lemma mul_zero_l (a b : num) :
  isZero a = true -> isZero (a * b)%js = true \/ (a * b)%js = NaN.
Proof. destruct a, b; simpl; try discriminate; intros; num_crush; auto. Qed.

Lemma mul_zero_r (a b : num) :
  finite a -> isZero b = true -> isZero (a * b)%js = true.
Proof. destruct a, b; simpl; try discriminate; try tauto; intros; num_crush. Qed.

Lemma div_by_zero (a b : num) :
  isZero b = true \/ b = NaN -> wild (a / b)%js = true.
Proof.
  intros [H| ->]; [|destruct a; reflexivity].
  destruct a, b; simpl in H; try discriminate; unfold wild; num_crush.
Qed.

Lemma wild_mul_10 (a : num) : wild a = true -> wild (a * 10)%js = true.
Proof. destruct a; simpl; try discriminate; intros _; unfold wild; num_crush. Qed.

Lemma wild_div_10 (a : num) : wild a = true -> wild (a / 10)%js = true.
Proof. destruct a; simpl; try discriminate; intros _; unfold wild; num_crush. Qed.

Lemma wild_round (a : num) : wild a = true -> wild (Math.round a) = true.
Proof. destruct a; simpl; try discriminate; auto. Qed.

Lemma sqrt_3_finite : Math.sqrt 3 = Fin (sqrt 3) /\ 0 < sqrt 3.
Proof.
  split; [apply sqrt_Fin; lra | apply sqrt_lt_R0; lra].
Qed.

Lemma calculateCurrent_zero_voltage (load voltage phases powerFactor : num) :
  isZero voltage = true ->
  wild (Electrical.calculateCurrent load voltage phases powerFactor) = true.
Proof.
  intros Hv. unfold Electrical.calculateCurrent. cbv zeta.
  apply wild_div_10, wild_round, wild_mul_10.
  destruct (phases === 3)%js; apply div_by_zero.
  - destruct sqrt_3_finite as (-> & _).
    pose proof (mul_zero_r (Fin (sqrt 3)) voltage I Hv) as Hz.
    now apply mul_zero_l.
  - now apply mul_zero_l.
Qed.

Lemma calculateCurrent_finite (load voltage phases powerFactor : num) :
  finite load -> finite voltage -> finite powerFactor ->
  val voltage <> 0 -> val powerFactor <> 0 ->
  finite (Electrical.calculateCurrent load voltage phases powerFactor).
Proof.
  intros Hl Hv Hp Nv Np. unfold Electrical.calculateCurrent. cbv zeta.
  destruct sqrt_3_finite as (-> & H3).
  assert (F10 : finite (Fin 10)) by exact I.
  destruct (mul_finite voltage powerFactor Hv Hp) as (F1 & V1).
  destruct (mul_finite (Fin (sqrt 3)) voltage I Hv) as (F2 & V2).
  destruct (mul_finite _ powerFactor F2 Hp) as (F3 & V3).
  assert (N1 : val (voltage * powerFactor)%js <> 0) by (rewrite V1; nra).
  assert (N3 : val (Fin (sqrt 3) * voltage * powerFactor)%js <> 0).
  { rewrite V3, V2. simpl val. apply Rmult_integral_contrapositive_currified;
      [apply Rmult_integral_contrapositive_currified; lra | exact Np]. }
  destruct (phases === 3)%js.
  - destruct (div_finite load _ Hl F3 N3) as (F4 & _).
    destruct (mul_finite _ _ F4 F10) as (F5 & _).
    destruct (round_finite _ F5) as (F6 & _).
    apply (div_finite _ _ F6 F10). simpl; lra.
  - destruct (div_finite load _ Hl F1 N1) as (F4 & _).
    destruct (mul_finite _ _ F4 F10) as (F5 & _).
    destruct (round_finite _ F5) as (F6 & _).
    apply (div_finite _ _ F6 F10). simpl; lra.
Qed.

Lemma slopeFactor_zero (slope : num) :
  isZero slope = true -> isZero (Math.sqrt (slope / 0.25)) = true.
Proof.
  destruct slope; simpl; try discriminate; intros H.
  - apply Reqb_true in H. subst r.
    replace (Fin 0 / 0.25)%js with (Fin 0) by num_crush.
    rewrite sqrt_Fin by lra. rewrite sqrt_0. simpl. now apply Reqb_true.
  - replace (NZero / 0.25)%js with NZero by num_crush. reflexivity.
Qed.

Lemma calculateDrainPipeSize_zero_slope (drainageFixtureUnits slope : num) :
  isZero slope = true ->
  Plumbing.calculateDrainPipeSize drainageFixtureUnits slope
  = NumText (Fin 12) inchMark
  \/ Plumbing.calculateDrainPipeSize drainageFixtureUnits slope
     = NumText (Fin 1.5) inchMark.
Proof.
  intros Hs. rewrite calculateDrainPipeSize_pick. unfold drainRequirement.
  pose proof (div_by_zero drainageFixtureUnits _
                (or_introl (slopeFactor_zero slope Hs))) as Hw.
  destruct (wild_cases _ Hw) as [-> | [-> | ->]].
  - left. now rewrite pick_NaN.
  - left. now rewrite pick_PInf.
  - right. unfold drainLadder. now rewrite pick_cons.
Qed.

(** ** The selected entry covers the requirement *)

Lemma rising_all (p : R * R) (l : list (R * R)) (d : R) :
  rising (p :: l) d -> forall q, In q l -> snd p <= snd q.
Proof.
  revert p; induction l as [|r l IH]; intros p H q Hq; [contradiction|].
  destruct H as (_ & _ & (_ & Hpr) & Hl).
  destruct Hq as [<-|Hq]; [exact Hpr|].
  apply Rle_trans with (snd r); [exact Hpr | now apply (IH r)].
Qed.

Lemma pick_covers (x : num) (l : list (R * R)) (d : R) (q : R * R) :
  rising l d -> In q l -> (Fin (fst q) >= x)%js = true ->
  exists p, In p l /\ pick x l d = snd p /\ (Fin (fst p) >= x)%js = true
            /\ snd p <= snd q.
Proof.
  induction l as [|r l IH]; intros Hl Hq Hx; [contradiction|].
  rewrite pick_cons. destruct (Fin (fst r) >= x)%js eqn:E.
  - exists r. repeat split; auto; [now left|].
    destruct Hq as [<-|Hq]; [lra | exact (rising_all r l d Hl q Hq)].
  - destruct Hq as [<-|Hq]; [congruence|].
    destruct IH as (p & Hp & Hpick & Hfit & Hle); auto.
    + simpl in Hl; tauto.
    + exists p. repeat split; auto. now right.
Qed.

Lemma in_twice (r : R) (l : list R) : In r l -> In (twice r) (map twice l).
Proof. apply in_map. Qed.

Lemma in_twice_inv (p : R * R) (l : list R) :
  In p (map twice l) -> fst p = snd p /\ In (snd p) l.
Proof.
  intros H. apply in_map_iff in H. destruct H as (r & <- & Hr). now split.
Qed.

Lemma in_map_Fin_inv (a : num) (l : list R) :
  In a (map Fin l) -> exists r, a = Fin r /\ In r l.
Proof.
  intros H. apply in_map_iff in H. destruct H as (r & <- & Hr). now exists r.
Qed.

Lemma breaker_covers (current : num) (isContinuous : bool) :
  (breakerRequirement current isContinuous <= 1200)%js = true ->
  (Electrical.calculateBreakerSize current isContinuous
   >= breakerRequirement current isContinuous)%js = true
  /\ (forall size, In size Electrical.standardSizes ->
        (size >= breakerRequirement current isContinuous)%js = true ->
        (Electrical.calculateBreakerSize current isContinuous <= size)%js = true).
Proof.
  intros H. rewrite calculateBreakerSize_pick.
  set (x := breakerRequirement current isContinuous) in *.
  split.
  - destruct (pick_covers x (map twice breakerLadder) 1200 (twice 1200))
      as (p & Hp & -> & Hfit & _); auto.
    + exact breakerLadder_rising.
    + apply in_twice. unfold breakerLadder; simpl; tauto.
    + destruct (in_twice_inv p _ Hp) as (E & _). now rewrite <- E.
  - intros size Hs Hfit.
    destruct (in_map_Fin_inv size _ Hs) as (r & -> & Hr).
    destruct (pick_covers x (map twice breakerLadder) 1200 (twice r))
      as (p & _ & -> & _ & Hle); auto.
    + exact breakerLadder_rising.
    + now apply in_twice.
    + now apply le_Fin.
Qed.

Lemma pipe_base_covers (fixtureUnits : num) :
  (Plumbing.requiredDiameter fixtureUnits <= 12)%js = true ->
  (baseSize fixtureUnits >= Plumbing.requiredDiameter fixtureUnits)%js = true
  /\ (forall size, In size Plumbing.standardSizes ->
        (size >= Plumbing.requiredDiameter fixtureUnits)%js = true ->
        (baseSize fixtureUnits <= size)%js = true).
Proof.
  intros H. rewrite baseSize_pick.
  set (x := Plumbing.requiredDiameter fixtureUnits) in *.
  assert (H12 : In (twice 12) (map twice pipeLadder)).
  { apply in_twice. unfold pipeLadder; simpl; tauto. }
  rewrite (pick_found x _ 0.5 12 _ H12 H).
  split.
  - destruct (pick_covers x (map twice pipeLadder) 12 (twice 12))
      as (p & Hp & -> & Hfit & _); auto.
    + exact pipeLadder_rising.
    + destruct (in_twice_inv p _ Hp) as (E & _). now rewrite <- E.
  - intros size Hs Hfit.
    destruct (in_map_Fin_inv size _ Hs) as (r & -> & Hr).
    destruct (pick_covers x (map twice pipeLadder) 12 (twice r))
      as (p & _ & -> & _ & Hle); auto.
    + exact pipeLadder_rising.
    + now apply in_twice.
    + now apply le_Fin.
Qed.

Lemma le_Fin_trans (x : num) (a b : R) :
  le x (Fin a) = true -> a <= b -> le x (Fin b) = true.
Proof. intros H Hab. apply (le_trans _ _ _ H). now apply le_Fin. Qed.

Lemma pipe_covers (fixtureUnits length pressureAvailable : num) :
  (Plumbing.requiredDiameter fixtureUnits <= 12)%js = true ->
  (number (Plumbing.calculatePipeSize fixtureUnits length pressureAvailable)
   >= Plumbing.requiredDiameter fixtureUnits)%js = true.
Proof.
  intros H. rewrite calculatePipeSize_eq. cbn [number].
  destruct (pipe_base_covers fixtureUnits H) as (Hc & _).
  destruct (Plumbing.pressureLossTooHigh _ _ _); [|exact Hc].
  destruct (baseSize_ladder fixtureUnits) as (r & Hr & Hin).
  rewrite Hr in *. destruct (nextSize_ladder r Hin) as (s & -> & Hs).
  pose proof (proj2 (nextTable_ladder _ Hs)) as Hle. simpl in Hle.
  unfold ge in *. now apply (le_Fin_trans _ r s).
Qed.

Lemma drain_covers (drainageFixtureUnits slope : num) :
  (drainRequirement drainageFixtureUnits slope <= 3900)%js = true ->
  exists cap,
    In cap Plumbing.drainCapacities
    /\ Plumbing.calculateDrainPipeSize drainageFixtureUnits slope
       = NumText (Plumbing.size cap) inchMark
    /\ (Plumbing.dfu cap >= drainRequirement drainageFixtureUnits slope)%js = true
    /\ (forall cap', In cap' Plumbing.drainCapacities ->
          (Plumbing.dfu cap' >= drainRequirement drainageFixtureUnits slope)%js
          = true ->
          (Plumbing.size cap <= Plumbing.size cap')%js = true).
Proof.
  intros H. rewrite calculateDrainPipeSize_pick.
  set (x := drainRequirement drainageFixtureUnits slope) in *.
  set (mk := fun p : R * R =>
               {| Plumbing.size := Fin (snd p); Plumbing.dfu := Fin (fst p) |}).
  assert (Hcaps : Plumbing.drainCapacities = map mk drainLadder) by reflexivity.
  assert (H39 : In (3900, 12) drainLadder) by (unfold drainLadder; simpl; tauto).
  destruct (pick_covers x drainLadder 12 (3900, 12) drainLadder_rising H39 H)
    as (p & Hp & Hpick & Hfit & _).
  exists (mk p). rewrite Hcaps. repeat split.
  - now apply in_map.
  - now rewrite Hpick.
  - exact Hfit.
  - intros cap' Hin Hfit'. apply in_map_iff in Hin.
    destruct Hin as (q & <- & Hq). cbn [mk Plumbing.size Plumbing.dfu] in *.
    destruct (pick_covers x drainLadder 12 q drainLadder_rising Hq Hfit')
      as (p' & _ & Hpick' & _ & Hle).
    apply le_Fin. rewrite <- Hpick, Hpick'. exact Hle.
Qed.

(** ** Rounding up: equipment capacity, water heater, fire pump *)


Lemma Zceil_bounds (x : R) : x <= IZR (Zceil x) < x + 1.
Proof. pose proof (Zceil_bound x). lra. Qed.




(** ** calculateStandpipeSystem *)

Lemma lt_Fin_eq (a b : R) : (Fin a < Fin b)%js = Rltb a b.
Proof. reflexivity. Qed.

Lemma le_Fin_eq (a b : R) : (Fin a <= Fin b)%js = Rleb a b.
Proof. reflexivity. Qed.

Ltac decide_cmp :=
  repeat first
    [ rewrite lt_Fin_eq | rewrite le_Fin_eq
    | rewrite (proj2 (Rltb_true _ _)) by lra
    | rewrite (proj2 (Rltb_false _ _)) by lra
    | rewrite (proj2 (Rleb_true _ _)) by lra
    | rewrite (proj2 (Rleb_false _ _)) by lra ].

Lemma sub_Fin (a b : R) : (Fin a - Fin b)%js = Fin (a - b).
Proof. unfold sub, neg, Reqb. destruct (Req_dec_T b 0); simpl; f_equal; lra. Qed.

Lemma add_Fin (a b : R) : (Fin a + Fin b)%js = Fin (a + b).
Proof. reflexivity. Qed.

Lemma mul_Fin_nonzero (a b : R) : a <> 0 -> b <> 0 -> (Fin a * Fin b)%js = Fin (a * b).
Proof. intros; num_crush. Qed.

Lemma standpipe_flow_low (floors buildingHeight : num) :
  (floors <= 3)%js = true ->
  FireProtection.standpipeFlowRate
    (FireProtection.calculateStandpipeSystem floors buildingHeight) = Fin 500.
Proof.
  intros H. unfold FireProtection.calculateStandpipeSystem. cbv zeta.
  cbn [FireProtection.standpipeFlowRate]. now rewrite H.
Qed.

Lemma standpipe_flow_high (f : R) (buildingHeight : num) :
  3 < f ->
  FireProtection.standpipeFlowRate
    (FireProtection.calculateStandpipeSystem (Fin f) buildingHeight)
  = Fin (Rmin 1250 (500 + (f - 3) * 250)).
Proof.
  intros H. unfold FireProtection.calculateStandpipeSystem. cbv zeta.
  cbn [FireProtection.standpipeFlowRate].
  rewrite le_Fin_eq, (proj2 (Rleb_false f 3)) by lra.
  rewrite sub_Fin, mul_Fin_nonzero, add_Fin, min_Fin by lra. reflexivity.
Qed.

Lemma standpipe_flow_PInf (buildingHeight : num) :
  FireProtection.standpipeFlowRate
    (FireProtection.calculateStandpipeSystem PInf buildingHeight) = Fin 1250.
Proof.
  unfold FireProtection.calculateStandpipeSystem. cbv zeta.
  cbn [FireProtection.standpipeFlowRate].
  change (PInf <= 3)%js with false. cbv iota.
  replace (500 + (PInf - 3) * 250)%js with PInf by num_crush.
  unfold Math.min. num_crush.
Qed.

Lemma standpipe_flow_NaN (buildingHeight : num) :
  FireProtection.standpipeFlowRate
    (FireProtection.calculateStandpipeSystem NaN buildingHeight) = NaN.
Proof. reflexivity. Qed.

(** The flow of a standpipe as a real, for a number of floors that is not
    NaN. *)
Lemma standpipe_flow_value (floors buildingHeight : num) :
  floors <> NaN ->
  exists r,
    FireProtection.standpipeFlowRate
      (FireProtection.calculateStandpipeSystem floors buildingHeight) = Fin r
    /\ 500 <= r <= 1250
    /\ ((floors <= 3)%js = true -> r = 500)
    /\ ((6 <= floors)%js = true -> r = 1250).
Proof.
  intros Hn.
  assert (Hlow : (floors <= 3)%js = true ->
                 exists r,
                   FireProtection.standpipeFlowRate
                     (FireProtection.calculateStandpipeSystem floors buildingHeight)
                   = Fin r
                   /\ 500 <= r <= 1250
                   /\ ((floors <= 3)%js = true -> r = 500)
                   /\ ((6 <= floors)%js = true -> r = 1250)).
  { intros H. exists 500. rewrite (standpipe_flow_low _ _ H).
    repeat split; try lra. intros H6.
    pose proof (le_trans _ _ _ H6 H) as H63. apply le_Fin in H63. lra. }
  destruct floors as [f| | | |]; [ | | | | tauto].
  - destruct (Rle_dec f 3) as [H3|H3].
    + apply Hlow. now apply le_Fin.
    + exists (Rmin 1250 (500 + (f - 3) * 250)).
      rewrite standpipe_flow_high by lra.
      unfold Rmin. destruct (Rle_dec _ _); repeat split; try lra;
        intros H; apply le_Fin in H; lra.
  - apply Hlow. num_crush.
  - exists 1250. rewrite standpipe_flow_PInf. repeat split; try lra.
    discriminate.
  - apply Hlow. reflexivity.
Qed.

Lemma standpipe_flow_mono (f1 f2 buildingHeight : num) :
  (f1 <= f2)%js = true ->
  (FireProtection.standpipeFlowRate
     (FireProtection.calculateStandpipeSystem f1 buildingHeight)
   <= FireProtection.standpipeFlowRate
        (FireProtection.calculateStandpipeSystem f2 buildingHeight))%js = true.
Proof.
  intros H.
  assert (N1 : f1 <> NaN) by (intros ->; discriminate H).
  assert (N2 : f2 <> NaN) by (intros ->; destruct f1; discriminate H).
  destruct (Bool.bool_dec (f2 <= 3)%js true) as [H2|H2].
  - rewrite (standpipe_flow_low f2 _ H2).
    rewrite (standpipe_flow_low f1 _ (le_trans _ _ _ H H2)). now apply le_Fin.
  - destruct (Bool.bool_dec (f1 <= 3)%js true) as [H1|H1].
    + rewrite (standpipe_flow_low f1 _ H1).
      destruct (standpipe_flow_value f2 buildingHeight N2) as (r & -> & Hr & _).
      apply le_Fin. lra.
    + destruct f1 as [a| | | |], f2 as [b| | | |]; try discriminate H;
        try tauto; try (exfalso; apply H1; reflexivity);
        try (exfalso; apply H1; num_crush; fail).
      * apply le_Fin in H.
        assert (3 < a).
        { destruct (Rlt_dec 3 a); [assumption|].
          exfalso; apply H1. apply le_Fin. lra. }
        rewrite !standpipe_flow_high by lra. apply le_Fin.
        unfold Rmin. repeat destruct (Rle_dec _ _); lra.
      * assert (3 < a).
        { destruct (Rlt_dec 3 a); [assumption|].
          exfalso; apply H1. apply le_Fin. lra. }
        rewrite standpipe_flow_high, standpipe_flow_PInf by lra. apply le_Fin.
        unfold Rmin. destruct (Rle_dec _ _); lra.
      * rewrite !standpipe_flow_PInf. apply le_Fin. lra.
Qed.

(** ** calculateSprinklerSystem: the outcomes per hazard class *)

Lemma orElse_Some (r d : R) : r <> 0 -> orElse (Some (Fin r)) (Fin d) = Fin r.
Proof. intros H. simpl. unfold orDefault, truthy. simpl.
       now rewrite (proj2 (Reqb_false r 0) H). Qed.

(** The flow rate and the pipe size once density and coverage are known. *)
Lemma sprinkler_flow (density coverage flow : R) :
  0 < density -> 0 < coverage -> coverage * 5 <= 1500 ->
  1500 * density = IZR (Zfloor (1500 * density)) -> flow = 1500 * density ->
  Math.round (Math.max 1500 (Fin coverage * 5) * Fin density)%js = Fin flow.
Proof.
  intros Hd Hc H5 Hint ->.
  rewrite mul_Fin, max_Fin by lra. rewrite Rmax_left by lra.
  rewrite mul_Fin, round_Fin by nra.
  f_equal. rewrite Hint. apply roundR_IZR.
Qed.

Ltac flow_int z :=
  match goal with
  | |- _ = IZR (Zfloor ?x) =>
      let E := fresh in
      assert (E : Zfloor x = z) by (apply Zfloor_eq; lra); rewrite E; lra
  end.

Lemma sprinkler_hazard (hazardClass : string) :
  hazardClass = "Light" \/ hazardClass = "Ordinary I"
  \/ hazardClass = "Ordinary II" \/ hazardClass = "Extra"
  \/ (getProp FireProtection.densities hazardClass = None
      /\ getProp FireProtection.coverages hazardClass = None
      /\ getProp FireProtection.basePressure hazardClass = None).
Proof.
  unfold FireProtection.densities, FireProtection.coverages,
    FireProtection.basePressure, getProp.
  destruct (String.eqb_spec "Light" hazardClass); [auto|].
  destruct (String.eqb_spec "Ordinary I" hazardClass); [auto|].
  destruct (String.eqb_spec "Ordinary II" hazardClass); [auto|].
  destruct (String.eqb_spec "Extra" hazardClass); [auto|].
  right; right; right; right. auto.
Qed.

Lemma sprinkler_outcome (area : num) (hazardClass : string) (ceilingHeight : num) :
  let s := FireProtection.calculateSprinklerSystem area hazardClass ceilingHeight in
  (FireProtection.flowRate s = Fin 150
   /\ FireProtection.pipeSize s = ("2.5" ++ inchMark)%string)
  \/ (FireProtection.flowRate s = Fin 225
      /\ FireProtection.pipeSize s = ("3" ++ inchMark)%string)
  \/ (FireProtection.flowRate s = Fin 300
      /\ FireProtection.pipeSize s = ("3" ++ inchMark)%string)
  \/ (FireProtection.flowRate s = Fin 450
      /\ FireProtection.pipeSize s = ("4" ++ inchMark)%string).
Proof.
  unfold FireProtection.calculateSprinklerSystem. cbv zeta.
  cbn [FireProtection.flowRate FireProtection.pipeSize].
  destruct (sprinkler_hazard hazardClass)
    as [-> | [-> | [-> | [-> | (E1 & E2 & _)]]]].
  - left.
    change (getProp FireProtection.densities "Light") with (Some (Fin 0.10)).
    change (getProp FireProtection.coverages "Light") with (Some (Fin 225)).
    rewrite !orElse_Some by lra.
    rewrite (sprinkler_flow 0.10 225 150) by (try lra; flow_int 150%Z).
    decide_cmp. split; reflexivity.
  - right; left.
    change (getProp FireProtection.densities "Ordinary I") with (Some (Fin 0.15)).
    change (getProp FireProtection.coverages "Ordinary I") with (Some (Fin 130)).
    rewrite !orElse_Some by lra.
    rewrite (sprinkler_flow 0.15 130 225) by (try lra; flow_int 225%Z).
    decide_cmp. split; reflexivity.
  - right; right; left.
    change (getProp FireProtection.densities "Ordinary II") with (Some (Fin 0.20)).
    change (getProp FireProtection.coverages "Ordinary II") with (Some (Fin 130)).
    rewrite !orElse_Some by lra.
    rewrite (sprinkler_flow 0.20 130 300) by (try lra; flow_int 300%Z).
    decide_cmp. split; reflexivity.
  - right; right; right.
    change (getProp FireProtection.densities "Extra") with (Some (Fin 0.30)).
    change (getProp FireProtection.coverages "Extra") with (Some (Fin 100)).
    rewrite !orElse_Some by lra.
    rewrite (sprinkler_flow 0.30 100 450) by (try lra; flow_int 450%Z).
    decide_cmp. split; reflexivity.
  - right; left. rewrite E1, E2. cbn [orElse].
    rewrite (sprinkler_flow 0.15 130 225) by (try lra; flow_int 225%Z).
    decide_cmp. split; reflexivity.
Qed.

Lemma sprinkler_unknown_pressure (area : num) (hazardClass : string) (ceilingHeight : num) :
  getProp FireProtection.basePressure hazardClass = None ->
  FireProtection.pressure
    (FireProtection.calculateSprinklerSystem area hazardClass ceilingHeight) = NaN
  /\ FireProtection.density
       (FireProtection.calculateSprinklerSystem area hazardClass ceilingHeight)
     = Fin 0.15
  /\ FireProtection.coverage
       (FireProtection.calculateSprinklerSystem area hazardClass ceilingHeight)
     = Fin 130.
Proof.
  intros H.
  assert (E : getProp FireProtection.densities hazardClass = None
              /\ getProp FireProtection.coverages hazardClass = None).
  { destruct (sprinkler_hazard hazardClass)
      as [-> | [-> | [-> | [-> | (E1 & E2 & _)]]]]; try discriminate H.
    now split. }
  destruct E as (E1 & E2).
  unfold FireProtection.calculateSprinklerSystem. cbv zeta.
  cbn [FireProtection.pressure FireProtection.density FireProtection.coverage].
  rewrite H, E1, E2. cbn [toNumber orElse]. repeat split.
Qed.



(** ** calculateDuctSize: the closest standard size *)



















(** ** Rounding *)

Lemma roundR_mono (x y : R) : x <= y -> roundR x <= roundR y.
Proof.
  intros H. unfold roundR. apply IZR_le.
  apply Zfloor_lub. pose proof (Zfloor_bound (x + / 2)). lra.
Qed.


(** ** calculateCurrent *)






(** ** calculateDemandLoad *)

Lemma calculateDemandLoad_Fin (l f : R) :
  0 <= l -> 0 <= f ->
  Electrical.calculateDemandLoad (Fin l) (Fin f) = Fin (roundR (l * f)).
Proof.
  intros Hl Hf. unfold Electrical.calculateDemandLoad.
  rewrite mul_Fin by lra. apply round_Fin. nra.
Qed.

(** ** calculateVoltageDrop *)











(** ** calculateWireSize: the fallbacks *)

Lemma wireTempFactor_unknown (tempRating : num) :
  (tempRating === 60)%js = false -> (tempRating === 75)%js = false ->
  (tempRating === 90)%js = false ->
  wireTempFactor tempRating = wireTempFactor 75.
Proof.
  intros H60 H75 H90. rewrite wireTempFactor_75.
  unfold wireTempFactor, Electrical.tempFactors, getNumProp.
  assert (S : forall a b, (a === b)%js = (b === a)%js).
  { intros a b. unfold strictEq. apply andb_comm. }
  rewrite (S (Fin 60)), (S (Fin 75)), (S (Fin 90)).
  change (Fin 60) with (60 : num). change (Fin 75) with (75 : num).
  change (Fin 90) with (90 : num).
  rewrite H60, H75, H90. reflexivity.
Qed.

Lemma calculateWireSize_fallbacks
    (current : num) (material : string) (tempRating : num) :
  (material <> "copper" ->
   Electrical.calculateWireSize current material tempRating
   = Electrical.calculateWireSize current "aluminum" tempRating)
  /\ ((tempRating === 60)%js = false -> (tempRating === 75)%js = false ->
      (tempRating === 90)%js = false ->
      Electrical.calculateWireSize current material tempRating
      = Electrical.calculateWireSize current material 75).
Proof.
  split.
  - intros Hm. unfold Electrical.calculateWireSize.
    apply String.eqb_neq in Hm. rewrite Hm. reflexivity.
  - intros H60 H75 H90. unfold Electrical.calculateWireSize. cbv zeta.
    fold (wireTempFactor tempRating). fold (wireTempFactor 75).
    now rewrite (wireTempFactor_unknown tempRating).
Qed.

(** ** fixtureUnitsToGPM: the jumps at the break points *)

Lemma gpmR_gaps (x : R) :
  (x <= 10 -> gpmR x < 14) /\ (10 < x -> 16 < gpmR x)
  /\ (x <= 50 -> gpmR x < 48) /\ (50 < x -> 60 < gpmR x).
Proof.
  assert (B1 : x <= 10 -> gpmR x < 14).
  { intros H. destruct (Rle_dec x 0) as [H0|H0].
    - rewrite gpmR_zero by lra. lra.
    - apply gpmR_branch1; lra. }
  assert (B2 : 10 < x -> x <= 50 -> 16 < gpmR x < 48).
  { intros; now apply gpmR_branch2. }
  assert (B3 : 50 < x -> 60 < gpmR x).
  { intros H. destruct (Rle_dec x 200).
    - apply gpmR_branch3; lra.
    - pose proof (gpmR_branch4 x). lra. }
  repeat split.
  - exact B1.
  - intros H. destruct (Rle_dec x 50); [apply B2; lra|].
    pose proof (B3 ltac:(lra)). lra.
  - intros H. destruct (Rle_dec x 10); [pose proof (B1 ltac:(lra)); lra|].
    apply B2; lra.
  - exact B3.
Qed.

(** ** calculateFrictionLoss *)




(** ** calculatePipeSize without fixture units *)

Lemma friction_no_flow_no_diameter (length : num) :
  Plumbing.calculateFrictionLoss (Fin 0) (Fin 0) length = NaN.
Proof.
  unfold Plumbing.calculateFrictionLoss. cbv zeta.
  pose proof (Rpower_pos 140 1.85).
  rewrite (pow_Fin 140) by lra.
  assert (E0 : forall y, Math.pow (Fin 0) y = Fin 0).
  { intros y. unfold Math.pow. rewrite (proj2 (Rltb_false 0 0)) by lra.
    now rewrite (proj2 (Reqb_true 0 0)). }
  rewrite !E0.
  rewrite (mul_Fin 4.52 0) by lra.
  rewrite (mul_Fin (Rpower 140 1.85)) by lra.
  replace (4.52 * 0) with 0 by lra.
  replace (Rpower 140 1.85 * 0) with 0 by lra.
  assert (Ez : (Fin 0 / Fin 0)%js = NaN).
  { unfold div. simpl. now rewrite (proj2 (Reqb_true 0 0)). }
  rewrite Ez. reflexivity.
Qed.

Lemma diameterR_zero : diameterR 0 = 0.
Proof.
  unfold diameterR.
  replace (4 * (0 / (7.48 * 60) / 5) / PI) with 0 by (unfold Rdiv; lra).
  rewrite sqrt_0. lra.
Qed.

Lemma mul_NaN_l (a : num) : (NaN * a)%js = NaN.
Proof. reflexivity. Qed.

Lemma div_NaN_l (a : num) : (NaN / a)%js = NaN.
Proof. reflexivity. Qed.

Lemma gt_NaN_l (a : num) : (NaN > a)%js = false.
Proof. destruct a; reflexivity. Qed.

Lemma calculatePipeSize_no_fixture (fixtureUnits length pressureAvailable : num) :
  finite fixtureUnits -> val fixtureUnits <= 0 ->
  Plumbing.calculatePipeSize fixtureUnits length pressureAvailable
  = NumText (Fin 0.5) inchMark.
Proof.
  intros Hf Hv. rewrite calculatePipeSize_eq.
  assert (Ed : Plumbing.requiredDiameter fixtureUnits = Fin 0).
  { rewrite requiredDiameter_finite by assumption.
    rewrite gpmR_zero by assumption. now rewrite diameterR_zero. }
  assert (Ep : Plumbing.pressureLossTooHigh fixtureUnits length pressureAvailable
               = false).
  { unfold Plumbing.pressureLossTooHigh. cbv zeta. rewrite Ed.
    rewrite fixtureUnitsToGPM_finite by assumption.
    rewrite gpmR_zero by assumption.
    rewrite friction_no_flow_no_diameter.
    rewrite mul_NaN_l, div_NaN_l. apply gt_NaN_l. }
  rewrite Ep, baseSize_pick, Ed. f_equal. f_equal.
  unfold pipeLadder. simpl map. rewrite pick_cons. cbn [fst snd twice].
  replace (Fin 0.5 >= Fin 0)%js with true; [reflexivity|].
  symmetry. apply le_Fin. lra.
Qed.

(** ** The friction loss the caller shows, at the selected size *)


(** ** calculateTotalFixtureUnits: the weighted sum *)






(** ** calculateHeadSpacing *)



(** ** The fire pump for the sprinkler and standpipe flows together *)

Lemma sprinkler_flow_range (area : num) (hazardClass : string) (ceilingHeight : num) :
  exists q,
    FireProtection.flowRate
      (FireProtection.calculateSprinklerSystem area hazardClass ceilingHeight)
    = Fin q /\ 150 <= q <= 450.
Proof.
  destruct (sprinkler_outcome area hazardClass ceilingHeight)
    as [(E & _) | [(E & _) | [(E & _) | (E & _)]]]; cbv zeta in E; rewrite E;
    eexists; (split; [reflexivity | lra]).
Qed.

Lemma pump_capacity_combined
    (area : num) (hazardClass : string) (ceilingHeight floors buildingHeight : num)
    (staticPressure requiredPressure elevation : num) :
  floors <> NaN ->
  exists c : Z,
    FireProtection.pumpCapacity
      (FireProtection.calculateFirePump
         (FireProtection.flowRate
            (FireProtection.calculateSprinklerSystem area hazardClass ceilingHeight)
          + FireProtection.standpipeFlowRate
              (FireProtection.calculateStandpipeSystem floors buildingHeight))%js
         staticPressure requiredPressure elevation)
    = Fin (IZR c * 100)
    /\ (10 <= c <= 26)%Z.
Proof.
  intros Hn.
  destruct (sprinkler_flow_range area hazardClass ceilingHeight) as (q & -> & Hq).
  destruct (standpipe_flow_value floors buildingHeight Hn) as (r & -> & Hr & _).
  rewrite add_Fin.
  unfold FireProtection.calculateFirePump. cbv zeta.
  cbn [FireProtection.pumpCapacity].
  rewrite mul_Fin by lra.
  assert (0 < (q + r) * 1.5 / 100) by (apply Rdiv_lt_0_compat; lra).
  rewrite div_Fin by lra.
  set (z := Zceil ((q + r) * 1.5 / 100)).
  pose proof (Zceil_bounds ((q + r) * 1.5 / 100)) as Hb. fold z in Hb.
  assert (Hz : (10 <= z <= 26)%Z).
  { assert (9.75 <= (q + r) * 1.5 / 100 <= 25.5) by lra.
    split.
    - assert (9 < IZR z) by lra. apply (lt_IZR 9) in H1. lia.
    - assert (IZR z < 27) by lra. apply (lt_IZR z 27) in H1. lia. }
  assert (Hc : IZR z - 1 < (q + r) * 1.5 / 100 <= IZR z) by lra.
  rewrite (ceil_Fin _ z H Hc).
  exists z. split; [|exact Hz].
  apply mul_Fin; [|lra]. apply (IZR_le 0). lia.
Qed.

(** ** calculateCoolingLoad *)



(** ** calculateVentilationRate *)







(** ** calculateWireSize: the returned size carries the current *)

Lemma wire_fits_or_exhausted (current : num) (material : string) (tempRating : num) :
  (exists k a,
      In (k, Fin a) Electrical.copperAmpacity75C
      /\ Electrical.calculateWireSize current material tempRating
         = (k ++ " AWG")%string
      /\ wireFits material tempRating current a = true)
  \/ (Electrical.calculateWireSize current material tempRating = "1000 kcmil"
      /\ wireFits material tempRating current 545 = false).
Proof.
  rewrite calculateWireSize_choice. unfold wireChoice.
  repeat match goal with
         | |- context [if wireFits ?m ?t ?c ?a then _ else _] =>
             let E := fresh "E" in
             destruct (wireFits m t c a) eqn:E;
             [left; eexists; exists a; split;
              [unfold Electrical.copperAmpacity75C; cbn [In]; eauto 30
              |split; [reflexivity | exact E]]|]
         end.
  right. split; reflexivity.
Qed.

(** ** Examples used to instantiate the statements below *)

Lemma drainRequirement_default (d : R) :
  0 <= d -> drainRequirement (Fin d) 0.25 = Fin d.
Proof.
  intros Hd. unfold drainRequirement.
  rewrite (div_Fin 0.25 0.25) by lra.
  replace (0.25 / 0.25) with 1 by lra.
  rewrite sqrt_Fin by lra. rewrite sqrt_1.
  rewrite div_Fin by lra. f_equal. lra.
Qed.



Lemma sprinkler_flow_extra (area ceilingHeight : num) :
  FireProtection.flowRate
    (FireProtection.calculateSprinklerSystem area "Extra" ceilingHeight)
  = Fin 450.
Proof.
  unfold FireProtection.calculateSprinklerSystem. cbv zeta.
  cbn [FireProtection.flowRate].
  change (getProp FireProtection.densities "Extra") with (Some (Fin 0.30)).
  change (getProp FireProtection.coverages "Extra") with (Some (Fin 100)).
  rewrite !orElse_Some by lra.
  apply (sprinkler_flow 0.30 100 450); try lra. flow_int 450%Z.
Qed.

(** ** calculateShortCircuitCurrent *)




(** ** calculateStandpipeSystem: the riser and the flow *)

Lemma standpipe_pipe_and_flow (floors buildingHeight : num) :
  floors <> NaN ->
  let s := FireProtection.calculateStandpipeSystem floors buildingHeight in
  exists r,
    FireProtection.standpipeFlowRate s = Fin r
    /\ ((FireProtection.standpipePipeSize s = ("4" ++ inchMark)%string
         /\ r <= 1000)
        \/ (FireProtection.standpipePipeSize s = ("6" ++ inchMark)%string
            /\ 1000 < r <= 1250)).
Proof.
  intros Hn s. subst s.
  assert (P : forall f,
             FireProtection.standpipePipeSize
               (FireProtection.calculateStandpipeSystem f buildingHeight)
             = if (f <= 5)%js then ("4" ++ inchMark)%string
               else ("6" ++ inchMark)%string) by reflexivity.
  rewrite P.
  destruct floors as [f| | | |]; try tauto.
  - destruct (Rle_dec f 3) as [H3|H3].
    + exists 500. rewrite standpipe_flow_low by (apply le_Fin; lra).
      split; [reflexivity|]. left.
      rewrite le_Fin_eq, (proj2 (Rleb_true f 5)) by lra. split; [reflexivity | lra].
    + rewrite standpipe_flow_high by lra.
      exists (Rmin 1250 (500 + (f - 3) * 250)). split; [reflexivity|].
      rewrite le_Fin_eq. destruct (Rle_dec f 5) as [H5|H5].
      * left. rewrite (proj2 (Rleb_true f 5)) by lra.
        split; [reflexivity|]. unfold Rmin. destruct Rle_dec; lra.
      * right. rewrite (proj2 (Rleb_false f 5)) by lra.
        split; [reflexivity|]. unfold Rmin. destruct Rle_dec; lra.
  - exists 500.
    rewrite standpipe_flow_low
      by (change (NZero <= 3)%js with (Rleb 0 3); apply Rleb_true; lra).
    split; [reflexivity|]. left.
    change (NZero <= 5)%js with (Rleb 0 5).
    rewrite (proj2 (Rleb_true 0 5)) by lra. split; [reflexivity | lra].
  - exists 1250. rewrite standpipe_flow_PInf. split; [reflexivity|].
    right. change (PInf <= 5)%js with false. split; [reflexivity | lra].
  - exists 500. rewrite standpipe_flow_low by reflexivity.
    split; [reflexivity|]. left. change (NInf <= 5)%js with true.
    split; [reflexivity | lra].
Qed.

(** ** Runs in binary64 *)

Section Binary64.

Import PrimFloat.
#[local] Set Warnings "-inexact-float".

Lemma b64_round_examples :
  B64.round 2.5%float = 3%float /\ B64.round (-2.5)%float = (-2)%float
  /\ B64.round 0.49999999999999994%float = 0%float
  /\ B64.round 13285.499999999998%float = 13285%float
  /\ B64.ceil 51.00000000000001%float = 52%float
  /\ B64.ceil (-0.5)%float = (-0)%float
  /\ B64.floor (-0.5)%float = (-1)%float.
Proof. repeat split; reflexivity. Qed.



Lemma b64_cooling_tie :
  B64.calculateCoolingLoad 750 0 98 75 = 54145%float
  /\ B64.calculateCoolingLoad 750 2 103 75 = 65425%float
  /\ B64.calculateCoolingLoad 750 3 103 75 = 65876%float.
Proof. repeat split; reflexivity. Qed.

Lemma b64_total_scaled :
  B64.calculateTotalFixtureUnits
    (B64.scale 0.1 [("Lavatory", 3%float); ("Shower", 3%float)])
  = 0.9000000000000001%float
  /\ PrimFloat.mul 0.1
       (B64.calculateTotalFixtureUnits
          [("Lavatory", 3%float); ("Shower", 3%float)])
     = 0.9%float.
Proof. split; reflexivity. Qed.

Lemma b64_water_heater :
  B64.tankCapacity (B64.calculateWaterHeaterSize 125 0.34) = 520%float.
Proof. reflexivity. Qed.

Lemma b64_fire_pump :
  B64.pumpPressure (B64.calculateFirePump 1000 3.3 8.3 0) = 10%float
  /\ B64.pumpPressure (B64.calculateFirePump 1000 188.7 240.4 100) = 115%float.
Proof. split; reflexivity. Qed.

End Binary64.

(** ** The engine functions as calls *)

Lemma run_ventilation (area occupancy : num) (spaceType : string) :
  Run.calculateVentilationRate area occupancy spaceType
  = Returns (HVAC.calculateVentilationRate area occupancy spaceType).
Proof.
  unfold Run.calculateVentilationRate, HVAC.calculateVentilationRate.
  cbv zeta.
  change (getProp HVAC.ventilationRates "office") with (Some HVAC.office).
  destruct (getProp HVAC.ventilationRates (toLowerCase spaceType));
    reflexivity.
Qed.

Lemma run_duct (airflow velocity : num) :
  Run.calculateDuctSize airflow velocity
  = Returns (HVAC.calculateDuctSize airflow velocity).
Proof. reflexivity. Qed.

(** ** Rounding stays next to its argument *)







(** The two steps that can throw do throw outside their domain. *)
Lemma throwing_steps :
  readProp (None : option HVAC.Rates) HVAC.perPerson = Throws
  /\ reduce (fun prev curr : num => curr) [] = Throws.
Proof. split; reflexivity. Qed.

(** * The claims *)

(** C10. For every current (zero, negative, infinite or NaN included) and
    either value of the continuous-load flag, [calculateBreakerSize]
    returns at least 15, the smallest entry of its ladder. *)
Theorem C10_breaker_at_least_15 (current : num) (isContinuous : bool) :
  (Electrical.calculateBreakerSize current isContinuous >= 15)%js = true.
Proof.
  rewrite calculateBreakerSize_pick. unfold ge. apply le_Fin.
  unfold breakerLadder. simpl map. rewrite pick_cons.
  destruct (_ >= _)%js; [simpl; lra|].
  apply (rising_lower _ _ 1200 (twice 15)). exact breakerLadder_rising.
Qed.

(** C5. [fixtureUnitsToGPM] is 0 at 0 and at every [wsfu <= 0]; it is
    monotonic from 0 on, across the breakpoints 10, 50 and 200: a larger
    number of fixture units never gives a smaller flow (the order is the
    non-strict one: the square root and the powers are rounded, so two
    neighbouring inputs can give the same flow); and its four branches
    compute [sqrt wsfu * 3.5], [wsfu^0.45 * 8], [wsfu^0.38 * 15] and
    [wsfu^0.35 * 20]. *)
Theorem C5_fixtureUnitsToGPM :
  Plumbing.fixtureUnitsToGPM (Fin 0) = Fin 0
  /\ (forall wsfu : num,
        (wsfu <= 0)%js = true -> Plumbing.fixtureUnitsToGPM wsfu = Fin 0)
  /\ (forall x y : num,
        (0 <= x)%js = true -> (x <= y)%js = true ->
        (Plumbing.fixtureUnitsToGPM x <= Plumbing.fixtureUnitsToGPM y)%js = true)
  /\ (forall w : R, 0 < w <= 10 ->
        Plumbing.fixtureUnitsToGPM (Fin w) = Fin (sqrt w * 3.5))
  /\ (forall w : R, 10 < w <= 50 ->
        Plumbing.fixtureUnitsToGPM (Fin w) = Fin (Rpower w 0.45 * 8))
  /\ (forall w : R, 50 < w <= 200 ->
        Plumbing.fixtureUnitsToGPM (Fin w) = Fin (Rpower w 0.38 * 15))
  /\ (forall w : R, 200 < w ->
        Plumbing.fixtureUnitsToGPM (Fin w) = Fin (Rpower w 0.35 * 20)).
Proof.
  split; [|split; [|split; [|repeat split]]].
  - rewrite fixtureUnitsToGPM_Fin, gpmR_zero; [reflexivity | lra].
  - intros wsfu H. unfold Plumbing.fixtureUnitsToGPM. now rewrite H.
  - intros x y Hx Hxy.
    assert (HZ : Plumbing.fixtureUnitsToGPM NZero = Fin (gpmR 0)).
    { rewrite gpmR_zero by lra. unfold Plumbing.fixtureUnitsToGPM.
      replace (NZero <= 0)%js with true by (symmetry; num_crush).
      reflexivity. }
    assert (HI : Plumbing.fixtureUnitsToGPM PInf = PInf).
    { unfold Plumbing.fixtureUnitsToGPM, Math.pow. num_crush. }
    destruct x as [rx| | | |], y as [ry| | | |]; try discriminate;
      rewrite ?fixtureUnitsToGPM_Fin, ?HZ, ?HI; try reflexivity;
      apply le_Fin; apply gpmR_mono;
      unfold le in Hxy; simpl in Hxy; try apply Rleb_true in Hxy; lra.
  - intros w Hw. rewrite fixtureUnitsToGPM_Fin. unfold gpmR; rdec; try lra.
    reflexivity.
  - intros w Hw. rewrite fixtureUnitsToGPM_Fin. unfold gpmR; rdec; try lra.
    reflexivity.
  - intros w Hw. rewrite fixtureUnitsToGPM_Fin. unfold gpmR; rdec; try lra.
    reflexivity.
  - intros w Hw. rewrite fixtureUnitsToGPM_Fin. unfold gpmR; rdec; try lra.
    reflexivity.
Qed.

Lemma C5_witness :
  (Plumbing.fixtureUnitsToGPM 5 <= Plumbing.fixtureUnitsToGPM 40)%js = true.
Proof.
  apply (proj1 (proj2 (proj2 C5_fixtureUnitsToGPM))); apply le_Fin; lra.
Defined.

Section HeatingLoad.

Import PrimFloat.




End HeatingLoad.




(** C8. For a fixed hazard class and ceiling height,
    [calculateSprinklerSystem] returns the same density, coverage, flow
    rate, pressure and pipe size for every two protected areas: the flow
    rate is round(max(1500, coverage * 5) * density), with no part for the
    area.  The head count is ceil(area / coverage), and it does change with
    the area. *)
Theorem C8_sprinkler_area_independence
    (area1 area2 : num) (hazardClass : string) (ceilingHeight : num) :
  let s1 := FireProtection.calculateSprinklerSystem area1 hazardClass ceilingHeight in
  let s2 := FireProtection.calculateSprinklerSystem area2 hazardClass ceilingHeight in
  FireProtection.density s1 = FireProtection.density s2
  /\ FireProtection.coverage s1 = FireProtection.coverage s2
  /\ FireProtection.flowRate s1 = FireProtection.flowRate s2
  /\ FireProtection.pressure s1 = FireProtection.pressure s2
  /\ FireProtection.pipeSize s1 = FireProtection.pipeSize s2
  /\ FireProtection.flowRate s1
     = Math.round (Math.max 1500 (FireProtection.coverage s1 * 5)
                   * FireProtection.density s1)%js
  /\ FireProtection.headCount s1
     = Math.ceil (area1 / FireProtection.coverage s1)%js
  /\ FireProtection.headCount
       (FireProtection.calculateSprinklerSystem 100 "Light" ceilingHeight)
     <> FireProtection.headCount
          (FireProtection.calculateSprinklerSystem 1000 "Light" ceilingHeight).
Proof.
  intros s1 s2. repeat split.
  rewrite sprinkler_headCount_100, sprinkler_headCount_1000.
  intros H; injection H; lra.
Qed.

Section FixtureUnits.

Import PrimFloat.
#[local] Set Warnings "-inexact-float".




End FixtureUnits.

(** C1.  When the requirement exceeds the largest threshold of the ladder,
    [calculateBreakerSize], [calculateWireSize] and [calculateDrainPipeSize]
    return the largest entry (1200, the 1000 size, 12 inches), but
    [calculatePipeSize] returns the first entry of its ladder, 0.5 inches,
    or 0.75 inches when the pressure-loss test moves it up: for 1000000
    fixture units over 100 ft at 50 psi the required diameter is above 12
    inches and the result is 0.5 inches. *)
Theorem C1_ladder_exhaustion :
  (forall (current : num) (isContinuous : bool),
      (Fin 1200 < breakerRequirement current isContinuous)%js = true ->
      Electrical.calculateBreakerSize current isContinuous = Fin 1200)
  /\ (forall (current : num) (material : string) (tempRating : num),
         (Fin (materialAmpacity material 545) * wireTempFactor tempRating
          < wireRequirement current)%js = true ->
         Electrical.calculateWireSize current material tempRating = "1000 kcmil")
  /\ (forall drainageFixtureUnits slope : num,
         (Fin 3900 < drainRequirement drainageFixtureUnits slope)%js = true ->
         Plumbing.calculateDrainPipeSize drainageFixtureUnits slope
         = NumText (Fin 12) inchMark)
  /\ (forall fixtureUnits length pressureAvailable : num,
         (Fin 12 < Plumbing.requiredDiameter fixtureUnits)%js = true ->
         Plumbing.calculatePipeSize fixtureUnits length pressureAvailable
         = NumText (Fin 0.5) inchMark
         \/ Plumbing.calculatePipeSize fixtureUnits length pressureAvailable
            = NumText (Fin 0.75) inchMark)
  /\ (Fin 12 < Plumbing.requiredDiameter 1000000)%js = true
  /\ Plumbing.calculatePipeSize 1000000 100 50 = NumText (Fin 0.5) inchMark.
Proof.
  split; [exact calculateBreakerSize_exhausted|].
  split; [exact calculateWireSize_exhausted|].
  split; [exact calculateDrainPipeSize_exhausted|].
  split; [exact calculatePipeSize_exhausted|].
  split; [|exact pipe_million].
  rewrite requiredDiameter_Fin. apply lt_Fin. exact diameter_million.
Qed.

Lemma C1_witness :
  Electrical.calculateBreakerSize 2000 true = Fin 1200.
Proof.
  apply (proj1 C1_ladder_exhaustion).
  unfold breakerRequirement. rewrite div_Fin by lra. apply lt_Fin. lra.
Defined.

(** C2.  The loop of [calculateWireSize] walks the ampacity table in the
    enumeration order of its keys, not in the order the table is written:
    it returns the first fit among the sizes 1, 250, 300, 350, 400, 500,
    600, 750, 1000.  For 10 A on copper at 75 C it returns "1 AWG", where
    the smallest gauge whose ampacity suffices is "14 AWG". *)
Theorem C2_wire_size_order :
  (forall (current : num) (material : string) (tempRating : num),
      Electrical.calculateWireSize current material tempRating
      = wireChoice (wireFits material tempRating current))
  /\ Electrical.calculateWireSize 10 "copper" 75 = "1 AWG"
  /\ calculateWireSize_spec 10 "copper" 75 = "14 AWG".
Proof.
  split; [exact calculateWireSize_choice|].
  split; [exact wire_example_code | exact wire_example_spec].
Qed.

(** C3, as the claim states it, fails for [calculatePipeSize]: with 100 ft
    of pipe and 50 psi available, 1e-40 fixture units give 0.75 inches (the
    pressure-loss test moves the selection up) and 0.5 fixture units give
    0.5 inches. *)
Lemma C3_counterexample :
  (Fin 1e-40 <= Fin 0.5)%js = true
  /\ (number (Plumbing.calculatePipeSize 0.5 100 50)
      < number (Plumbing.calculatePipeSize 1e-40 100 50))%js = true.
Proof.
  split; [apply le_Fin; lra|].
  rewrite pipe_half, pipe_tiny. cbn [number]. apply lt_Fin. lra.
Qed.

(** C3, amended.  [calculateBreakerSize] and [calculateWireSize] are
    monotonic non-decreasing in the current, and [calculateDrainPipeSize]
    in the finite drainage fixture units for a slope other than -0; each of
    the four functions returns a value of its ladder (for the wire size: a
    table key followed by " AWG", or "1000 kcmil").  [calculatePipeSize] is
    monotonic in the finite fixture units as long as the required diameter
    stays within the ladder and the pressure-loss test does not move the
    smaller input up alone. *)
Theorem C3_monotone_and_ladder :
  (forall (c1 c2 : num) (isContinuous : bool),
      (c1 <= c2)%js = true ->
      (Electrical.calculateBreakerSize c1 isContinuous
       <= Electrical.calculateBreakerSize c2 isContinuous)%js = true)
  /\ (forall (current : num) (isContinuous : bool),
         In (Electrical.calculateBreakerSize current isContinuous)
            Electrical.standardSizes)
  /\ (forall (c1 c2 : num) (material : string) (tempRating : num),
         (c1 <= c2)%js = true ->
         (wireRank (Electrical.calculateWireSize c1 material tempRating)
          <= wireRank (Electrical.calculateWireSize c2 material tempRating))%nat)
  /\ (forall (current : num) (material : string) (tempRating : num),
         In (Electrical.calculateWireSize current material tempRating)
            wireLabels)
  /\ (forall d1 d2 slope : num,
         finite d1 -> finite d2 -> slope <> NZero -> (d1 <= d2)%js = true ->
         (number (Plumbing.calculateDrainPipeSize d1 slope)
          <= number (Plumbing.calculateDrainPipeSize d2 slope))%js = true)
  /\ (forall drainageFixtureUnits slope : num,
         exists cap, In cap Plumbing.drainCapacities /\
           Plumbing.calculateDrainPipeSize drainageFixtureUnits slope
           = NumText (Plumbing.size cap) inchMark)
  /\ (forall fixtureUnits length pressureAvailable : num,
         In (number (Plumbing.calculatePipeSize fixtureUnits length
                                                pressureAvailable))
            Plumbing.standardSizes
         /\ suffix (Plumbing.calculatePipeSize fixtureUnits length
                                               pressureAvailable) = inchMark)
  /\ (forall fu1 fu2 length pressureAvailable : num,
         finite fu1 -> finite fu2 -> (fu1 <= fu2)%js = true ->
         (Plumbing.requiredDiameter fu2 <= 12)%js = true ->
         (Plumbing.pressureLossTooHigh fu1 length pressureAvailable = true ->
          Plumbing.pressureLossTooHigh fu2 length pressureAvailable = true) ->
         (number (Plumbing.calculatePipeSize fu1 length pressureAvailable)
          <= number (Plumbing.calculatePipeSize fu2 length pressureAvailable))%js
         = true).
Proof.
  split; [exact calculateBreakerSize_mono|].
  split; [exact calculateBreakerSize_ladder|].
  split.
  { intros c1 c2 material tempRating H. rewrite !calculateWireSize_choice.
    apply wireChoice_mono. intros a. now apply wireFits_current. }
  split.
  { intros. rewrite calculateWireSize_choice. apply wireChoice_label. }
  split; [exact calculateDrainPipeSize_mono|].
  split; [exact calculateDrainPipeSize_ladder|].
  split; [|exact calculatePipeSize_mono].
  intros. split; [apply calculatePipeSize_ladder | reflexivity].
Qed.

Lemma C3_witness :
  (Electrical.calculateBreakerSize 10 true
   <= Electrical.calculateBreakerSize 20 true)%js = true
  /\ (number (Plumbing.calculateDrainPipeSize 5 0.25)
      <= number (Plumbing.calculateDrainPipeSize 10 0.25))%js = true
  /\ (number (Plumbing.calculatePipeSize 1e-40 0 50)
      <= number (Plumbing.calculatePipeSize 0.5 0 50))%js = true.
Proof.
  split; [|split].
  - apply (proj1 C3_monotone_and_ladder). apply le_Fin. lra.
  - apply (proj1 (proj2 (proj2 (proj2 (proj2 C3_monotone_and_ladder))))).
    + exact I.
    + exact I.
    + discriminate.
    + apply le_Fin. lra.
  - apply (proj2 (proj2 (proj2 (proj2 (proj2 (proj2
             (proj2 C3_monotone_and_ladder))))))).
    + exact I.
    + exact I.
    + apply le_Fin. lra.
    + rewrite requiredDiameter_Fin. apply le_Fin.
      pose proof diameter_half. lra.
    + rewrite pressureLossTooHigh_Fin by lra. intros H.
      apply Rltb_true in H. lra.
Defined.

(** C7.  Every engine function returns for every input of its types, NaN,
    the infinities and the zeros included: no call throws.  The two steps
    of the engine that can throw never do: [calculateVentilationRate]
    reads the properties of a rates object that is always there, and
    [calculateDuctSize] reduces an array that is not empty.  Invalid
    inputs give degenerate values: with a voltage of zero
    [calculateCurrent] returns NaN or an infinity, and with a slope of zero
    [calculateDrainPipeSize] still returns a size, 12 or 1.5 inches. *)
Theorem C7_degenerate_inputs :
  (forall connectedLoad demandFactor,
      returns (Run.calculateDemandLoad connectedLoad demandFactor))
  /\ (forall load voltage phases powerFactor,
         returns (Run.calculateCurrent load voltage phases powerFactor))
  /\ (forall current isContinuous,
         returns (Run.calculateBreakerSize current isContinuous))
  /\ (forall current material tempRating,
         returns (Run.calculateWireSize current material tempRating))
  /\ (forall current distance voltage wireSize phases,
         returns (Run.calculateVoltageDrop current distance voltage wireSize
                                           phases))
  /\ (forall transformerKVA voltage impedance,
         returns (Run.calculateShortCircuitCurrent transformerKVA voltage
                                                   impedance))
  /\ (forall fixtures, returns (Run.calculateTotalFixtureUnits fixtures))
  /\ (forall wsfu, returns (Run.fixtureUnitsToGPM wsfu))
  /\ (forall flowRate diameter length,
         returns (Run.calculateFrictionLoss flowRate diameter length))
  /\ (forall fixtureUnits length pressureAvailable,
         returns (Run.calculatePipeSize fixtureUnits length pressureAvailable))
  /\ (forall drainageFixtureUnits slope,
         returns (Run.calculateDrainPipeSize drainageFixtureUnits slope))
  /\ (forall fixtureCount peakDemand,
         returns (Run.calculateWaterHeaterSize fixtureCount peakDemand))
  /\ (forall area hazardClass ceilingHeight,
         returns (Run.calculateSprinklerSystem area hazardClass ceilingHeight))
  /\ (forall floors buildingHeight,
         returns (Run.calculateStandpipeSystem floors buildingHeight))
  /\ (forall totalFlowRequired staticPressure requiredPressure elevation,
         returns (Run.calculateFirePump totalFlowRequired staticPressure
                                        requiredPressure elevation))
  /\ (forall buildingArea constructionType,
         returns (Run.calculateFireHydrantFlow buildingArea constructionType))
  /\ (forall coverage, returns (Run.calculateHeadSpacing coverage))
  /\ (forall area occupancy outdoorTemp indoorTemp,
         returns (Run.calculateHeatingLoad area occupancy outdoorTemp indoorTemp))
  /\ (forall area occupancy outdoorTemp indoorTemp,
         returns (Run.calculateCoolingLoad area occupancy outdoorTemp indoorTemp))
  /\ (forall area occupancy spaceType,
         Run.calculateVentilationRate area occupancy spaceType
         = Returns (HVAC.calculateVentilationRate area occupancy spaceType))
  /\ (forall coolingLoad, returns (Run.calculateEquipmentCapacity coolingLoad))
  /\ (forall airflow velocity,
         Run.calculateDuctSize airflow velocity
         = Returns (HVAC.calculateDuctSize airflow velocity))
  /\ (forall load voltage phases powerFactor : num,
         isZero voltage = true ->
         wild (Electrical.calculateCurrent load voltage phases powerFactor)
         = true)
  /\ (forall drainageFixtureUnits slope : num,
         isZero slope = true ->
         Plumbing.calculateDrainPipeSize drainageFixtureUnits slope
         = NumText (Fin 12) inchMark
         \/ Plumbing.calculateDrainPipeSize drainageFixtureUnits slope
            = NumText (Fin 1.5) inchMark).
Proof.
  do 19 (split; [intros; exact (ex_intro _ _ eq_refl)|]).
  split; [exact run_ventilation|].
  split; [intros; exact (ex_intro _ _ eq_refl)|].
  split; [exact run_duct|].
  split; [exact calculateCurrent_zero_voltage
         | exact calculateDrainPipeSize_zero_slope].
Qed.

Lemma C7_witness :
  wild (Electrical.calculateCurrent 50000 0 3 0.85) = true
  /\ (Plumbing.calculateDrainPipeSize 100 0 = NumText (Fin 12) inchMark
      \/ Plumbing.calculateDrainPipeSize 100 0 = NumText (Fin 1.5) inchMark).
Proof.
  pose proof C7_degenerate_inputs as H.
  do 22 (apply proj2 in H).
  destruct H as (Hv & Hs).
  split.
  - apply Hv. apply Reqb_true. reflexivity.
  - apply Hs. apply Reqb_true. reflexivity.
Defined.

(** * Further properties of the engine *)

(** ** Electrical *)

(** X1. [calculateBreakerSize] selects the next standard size: when the
    required rating (the current divided by 0.8 for a continuous load, the
    current itself otherwise) is at most 1200, the breaker returned is at
    least the required rating, and no standard size that reaches the
    rating is smaller than it. *)
Theorem X1_breaker_covers_rating (current : num) (isContinuous : bool) :
  (breakerRequirement current isContinuous <= 1200)%js = true ->
  (Electrical.calculateBreakerSize current isContinuous
   >= breakerRequirement current isContinuous)%js = true
  /\ (forall size, In size Electrical.standardSizes ->
        (size >= breakerRequirement current isContinuous)%js = true ->
        (Electrical.calculateBreakerSize current isContinuous <= size)%js = true).
Proof. exact (breaker_covers current isContinuous). Qed.

Lemma X1_witness :
  (Electrical.calculateBreakerSize 40 true >= breakerRequirement 40 true)%js = true.
Proof.
  apply (X1_breaker_covers_rating 40 true).
  unfold breakerRequirement. rewrite div_Fin by lra. apply le_Fin. lra.
Defined.

(** X2. The size [calculateWireSize] returns carries the current: either
    it is the label of a table entry whose ampacity (62 % of it, rounded,
    for a material other than copper) times the temperature factor is at
    least the current divided by 0.8, or it is "1000 kcmil" and even the
    largest ampacity, 545, does not suffice. *)
Theorem X2_wire_fits_or_exhausted
    (current : num) (material : string) (tempRating : num) :
  (exists k a,
      In (k, Fin a) Electrical.copperAmpacity75C
      /\ Electrical.calculateWireSize current material tempRating
         = (k ++ " AWG")%string
      /\ (Fin (materialAmpacity material a) * wireTempFactor tempRating
          >= current / 0.8)%js = true)
  \/ (Electrical.calculateWireSize current material tempRating = "1000 kcmil"
      /\ (Fin (materialAmpacity material 545) * wireTempFactor tempRating
          >= current / 0.8)%js = false).
Proof. exact (wire_fits_or_exhausted current material tempRating). Qed.

(** X3. The fallbacks of [calculateWireSize]: every material other than
    'copper' is sized as aluminum, and every temperature rating other than
    60, 75 and 90 (NaN included) is sized as 75. *)
Theorem X3_wire_size_fallbacks
    (current : num) (material : string) (tempRating : num) :
  (material <> "copper" ->
   Electrical.calculateWireSize current material tempRating
   = Electrical.calculateWireSize current "aluminum" tempRating)
  /\ ((tempRating === 60)%js = false -> (tempRating === 75)%js = false ->
      (tempRating === 90)%js = false ->
      Electrical.calculateWireSize current material tempRating
      = Electrical.calculateWireSize current material 75).
Proof. exact (calculateWireSize_fallbacks current material tempRating). Qed.

Lemma X3_witness :
  Electrical.calculateWireSize 100 "gold" 80
  = Electrical.calculateWireSize 100 "aluminum" 75.
Proof.
  rewrite (proj1 (X3_wire_size_fallbacks 100 "gold" 80)) by discriminate.
  apply (proj2 (X3_wire_size_fallbacks 100 "aluminum" 80));
    rewrite strictEq_Fin; apply Reqb_false; lra.
Defined.



(** X5. [calculateDemandLoad]: for a connected load that is not negative
    and a demand factor between 0 and 1, the demand load is a number
    between 0 and the connected load rounded to an integer. *)
Theorem X5_demand_load_bounds (connectedLoad demandFactor : R) :
  0 <= connectedLoad -> 0 <= demandFactor <= 1 ->
  exists demand,
    Electrical.calculateDemandLoad (Fin connectedLoad) (Fin demandFactor)
    = Fin demand
    /\ 0 <= demand <= roundR connectedLoad.
Proof.
  intros Hl Hf. exists (roundR (connectedLoad * demandFactor)).
  split; [apply calculateDemandLoad_Fin; lra|].
  split; [apply roundR_nonneg; nra | apply roundR_mono; nra].
Qed.

Lemma X5_witness :
  exists demand,
    Electrical.calculateDemandLoad 50000 0.8 = Fin demand
    /\ 0 <= demand <= roundR 50000.
Proof. apply (X5_demand_load_bounds 50000 0.8); lra. Defined.





(** ** Plumbing *)



(** X9. [fixtureUnitsToGPM] jumps at its break points 10 and 50: up to 10
    fixture units the flow is below 14 GPM and above 10 it exceeds 16;
    up to 50 it is below 48 and above 50 it exceeds 60.  No number of
    fixture units gives a flow between 14 and 16 or between 48 and 60. *)
Theorem X9_flow_jumps (wsfu gpm : R) :
  Plumbing.fixtureUnitsToGPM (Fin wsfu) = Fin gpm ->
  (wsfu <= 10 -> gpm < 14) /\ (10 < wsfu -> 16 < gpm)
  /\ (wsfu <= 50 -> gpm < 48) /\ (50 < wsfu -> 60 < gpm)
  /\ ~ 14 <= gpm <= 16 /\ ~ 48 <= gpm <= 60.
Proof.
  rewrite fixtureUnitsToGPM_Fin. intros H. injection H as <-.
  destruct (gpmR_gaps wsfu) as (H1 & H2 & H3 & H4).
  repeat split; auto.
  - intros (Ha & Hb). destruct (Rle_dec wsfu 10);
      [pose proof (H1 ltac:(lra)) | pose proof (H2 ltac:(lra))]; lra.
  - intros (Ha & Hb). destruct (Rle_dec wsfu 50);
      [pose proof (H3 ltac:(lra)) | pose proof (H4 ltac:(lra))]; lra.
Qed.

Lemma X9_witness : 16 < gpmR 11.
Proof.
  apply (X9_flow_jumps 11 (gpmR 11) (fixtureUnitsToGPM_Fin 11)). lra.
Defined.



(** X11. [calculatePipeSize] covers the diameter it computes: when the
    required diameter is at most 12 inches, the size returned is at least
    that diameter. *)
Theorem X11_pipe_covers_diameter (fixtureUnits length pressureAvailable : num) :
  (Plumbing.requiredDiameter fixtureUnits <= 12)%js = true ->
  (number (Plumbing.calculatePipeSize fixtureUnits length pressureAvailable)
   >= Plumbing.requiredDiameter fixtureUnits)%js = true.
Proof. exact (pipe_covers fixtureUnits length pressureAvailable). Qed.

Lemma X11_witness :
  (number (Plumbing.calculatePipeSize 0.5 100 50)
   >= Plumbing.requiredDiameter 0.5)%js = true.
Proof.
  apply (X11_pipe_covers_diameter 0.5 100 50).
  rewrite requiredDiameter_Fin. apply le_Fin. pose proof diameter_half. lra.
Defined.

(** X12. Without fixture units (a count that is zero or negative)
    [calculatePipeSize] returns the smallest size, 0.5 inches, for every
    length and every available pressure. *)
Theorem X12_pipe_without_fixtures (fixtureUnits length pressureAvailable : num) :
  finite fixtureUnits -> val fixtureUnits <= 0 ->
  Plumbing.calculatePipeSize fixtureUnits length pressureAvailable
  = NumText (Fin 0.5) inchMark.
Proof. exact (calculatePipeSize_no_fixture fixtureUnits length pressureAvailable). Qed.

Lemma X12_witness :
  Plumbing.calculatePipeSize 0 100 50 = NumText (Fin 0.5) inchMark.
Proof. apply (X12_pipe_without_fixtures 0 100 50); [exact I | simpl; lra]. Defined.



(** X14. [calculateDrainPipeSize] covers the load: when the fixture units
    divided by the slope factor are at most 3900, the size returned is
    that of a table entry whose capacity is at least this load, and no
    entry that carries the load has a smaller size. *)
Theorem X14_drain_covers_load (drainageFixtureUnits slope : num) :
  (drainRequirement drainageFixtureUnits slope <= 3900)%js = true ->
  exists cap,
    In cap Plumbing.drainCapacities
    /\ Plumbing.calculateDrainPipeSize drainageFixtureUnits slope
       = NumText (Plumbing.size cap) inchMark
    /\ (Plumbing.dfu cap >= drainRequirement drainageFixtureUnits slope)%js = true
    /\ (forall cap', In cap' Plumbing.drainCapacities ->
          (Plumbing.dfu cap' >= drainRequirement drainageFixtureUnits slope)%js
          = true ->
          (Plumbing.size cap <= Plumbing.size cap')%js = true).
Proof. exact (drain_covers drainageFixtureUnits slope). Qed.

Lemma X14_witness :
  exists cap,
    In cap Plumbing.drainCapacities
    /\ Plumbing.calculateDrainPipeSize 100 0.25
       = NumText (Plumbing.size cap) inchMark
    /\ (Plumbing.dfu cap >= drainRequirement 100 0.25)%js = true.
Proof.
  destruct (X14_drain_covers_load 100 0.25) as (cap & Hin & Hs & Hc & _).
  - rewrite drainRequirement_default by lra. apply le_Fin. lra.
  - exists cap. repeat split; assumption.
Defined.



(** ** Fire protection *)

(** X16. [calculateSprinklerSystem] has four outcomes for the flow and the
    riser: 150 GPM with a 2.5 inch pipe (Light), 225 GPM with 3 inches
    (Ordinary I, and every hazard class that is not in the tables),
    300 GPM with 3 inches (Ordinary II) and 450 GPM with 4 inches (Extra),
    for every area and ceiling height and every hazard class that is not a
    name every object inherits.  The branches for 2, 5, 6 and 8 inches
    are never taken. *)
Theorem X16_sprinkler_outcomes
    (area : num) (hazardClass : string) (ceilingHeight : num) :
  ~ In hazardClass inheritedNames ->
  let s := FireProtection.calculateSprinklerSystem area hazardClass ceilingHeight in
  (FireProtection.flowRate s = Fin 150
   /\ FireProtection.pipeSize s = ("2.5" ++ inchMark)%string)
  \/ (FireProtection.flowRate s = Fin 225
      /\ FireProtection.pipeSize s = ("3" ++ inchMark)%string)
  \/ (FireProtection.flowRate s = Fin 300
      /\ FireProtection.pipeSize s = ("3" ++ inchMark)%string)
  \/ (FireProtection.flowRate s = Fin 450
      /\ FireProtection.pipeSize s = ("4" ++ inchMark)%string).
Proof. intros _. exact (sprinkler_outcome area hazardClass ceilingHeight). Qed.

Lemma X16_witness :
  FireProtection.flowRate (FireProtection.calculateSprinklerSystem 5000 "Extra" 12)
  = Fin 450
  /\ FireProtection.pipeSize (FireProtection.calculateSprinklerSystem 5000 "Extra" 12)
     = ("4" ++ inchMark)%string.
Proof.
  destruct (X16_sprinkler_outcomes 5000 "Extra" 12)
    as [(E & _) | [(E & _) | [(E & _) | H]]].
  - cbn; intuition discriminate.
  - exfalso. revert E. rewrite (sprinkler_flow_extra 5000 12).
    intros E; injection E; lra.
  - exfalso. revert E. rewrite (sprinkler_flow_extra 5000 12).
    intros E; injection E; lra.
  - exfalso. revert E. rewrite (sprinkler_flow_extra 5000 12).
    intros E; injection E; lra.
  - exact H.
Defined.

(** X17. For a hazard class that is not one of 'Light', 'Ordinary I',
    'Ordinary II' and 'Extra' (nor a name every object inherits),
    [calculateSprinklerSystem] falls back to a density of 0.15 and a
    coverage of 130, but the base pressure has no fallback: the pressure
    returned is NaN. *)
Theorem X17_sprinkler_unknown_hazard
    (area : num) (hazardClass : string) (ceilingHeight : num) :
  ~ In hazardClass ["Light"; "Ordinary I"; "Ordinary II"; "Extra"] ->
  ~ In hazardClass inheritedNames ->
  FireProtection.pressure
    (FireProtection.calculateSprinklerSystem area hazardClass ceilingHeight) = NaN
  /\ FireProtection.density
       (FireProtection.calculateSprinklerSystem area hazardClass ceilingHeight)
     = Fin 0.15
  /\ FireProtection.coverage
       (FireProtection.calculateSprinklerSystem area hazardClass ceilingHeight)
     = Fin 130.
Proof.
  intros H _. apply sprinkler_unknown_pressure.
  apply getProp_None. exact H.
Qed.

Lemma X17_witness :
  FireProtection.pressure
    (FireProtection.calculateSprinklerSystem 5000 "Storage" 12) = NaN.
Proof.
  apply (X17_sprinkler_unknown_hazard 5000 "Storage" 12);
    cbn; intuition discriminate.
Defined.



(** X19. The flow of [calculateStandpipeSystem]: for a number of floors
    that is not NaN it is a number between 500 and 1250, equal to 500 up
    to 3 floors and to 1250 from 6 floors on, and it does not decrease
    when the number of floors grows; for NaN floors it is NaN. *)
Theorem X19_standpipe_flow (buildingHeight : num) :
  (forall floors, floors <> NaN ->
     exists r,
       FireProtection.standpipeFlowRate
         (FireProtection.calculateStandpipeSystem floors buildingHeight) = Fin r
       /\ 500 <= r <= 1250
       /\ ((floors <= 3)%js = true -> r = 500)
       /\ ((6 <= floors)%js = true -> r = 1250))
  /\ (forall f1 f2, (f1 <= f2)%js = true ->
        (FireProtection.standpipeFlowRate
           (FireProtection.calculateStandpipeSystem f1 buildingHeight)
         <= FireProtection.standpipeFlowRate
              (FireProtection.calculateStandpipeSystem f2 buildingHeight))%js
        = true)
  /\ FireProtection.standpipeFlowRate
       (FireProtection.calculateStandpipeSystem NaN buildingHeight) = NaN.
Proof.
  split; [intros floors; apply standpipe_flow_value|].
  split; [intros f1 f2; apply standpipe_flow_mono|].
  apply standpipe_flow_NaN.
Qed.

Lemma X19_witness :
  exists r,
    FireProtection.standpipeFlowRate
      (FireProtection.calculateStandpipeSystem 8 96) = Fin r
    /\ r = 1250.
Proof.
  destruct (proj1 (X19_standpipe_flow 96) 8) as (r & Hr & _ & _ & H6).
  - discriminate.
  - exists r. split; [exact Hr|]. apply H6. apply le_Fin. lra.
Defined.



(** X21. The pump sized for the sprinkler and the standpipe flows together
    (the sum the caller passes to [calculateFirePump]): whatever the area,
    the hazard class (not a name every object inherits), the heights and
    the pressures, for a number of floors that is not NaN the pump
    capacity is a multiple of 100 GPM between 1000 and 2600. *)
Theorem X21_pump_capacity_combined
    (area : num) (hazardClass : string) (ceilingHeight floors buildingHeight : num)
    (staticPressure requiredPressure elevation : num) :
  ~ In hazardClass inheritedNames ->
  floors <> NaN ->
  exists c : Z,
    FireProtection.pumpCapacity
      (FireProtection.calculateFirePump
         (FireProtection.flowRate
            (FireProtection.calculateSprinklerSystem area hazardClass ceilingHeight)
          + FireProtection.standpipeFlowRate
              (FireProtection.calculateStandpipeSystem floors buildingHeight))%js
         staticPressure requiredPressure elevation)
    = Fin (IZR c * 100)
    /\ (10 <= c <= 26)%Z.
Proof.
  intros _.
  exact (pump_capacity_combined area hazardClass ceilingHeight floors
           buildingHeight staticPressure requiredPressure elevation).
Qed.

Lemma X21_witness :
  exists c : Z,
    FireProtection.pumpCapacity
      (FireProtection.calculateFirePump
         (FireProtection.flowRate
            (FireProtection.calculateSprinklerSystem 5000 "Light" 12)
          + FireProtection.standpipeFlowRate
              (FireProtection.calculateStandpipeSystem 4 48))%js
         60 100 50)
    = Fin (IZR c * 100)
    /\ (10 <= c <= 26)%Z.
Proof.
  apply (X21_pump_capacity_combined 5000 "Light" 12 4 48 60 100 50);
    [cbn; intuition discriminate | discriminate].
Defined.



(** ** HVAC *)











(** ** Further electrical and fire-protection properties *)



(** X29. The riser of [calculateStandpipeSystem] goes with its flow: for a
    number of floors that is not NaN, either the pipe is 4 inches and the
    flow is at most 1000 GPM, or the pipe is 6 inches and the flow is
    above 1000 and at most 1250 GPM. *)
Theorem X29_standpipe_pipe_and_flow (floors buildingHeight : num) :
  floors <> NaN ->
  let s := FireProtection.calculateStandpipeSystem floors buildingHeight in
  exists r,
    FireProtection.standpipeFlowRate s = Fin r
    /\ ((FireProtection.standpipePipeSize s = ("4" ++ inchMark)%string
         /\ r <= 1000)
        \/ (FireProtection.standpipePipeSize s = ("6" ++ inchMark)%string
            /\ 1000 < r <= 1250)).
Proof. exact (standpipe_pipe_and_flow floors buildingHeight). Qed.

Lemma X29_witness :
  let s := FireProtection.calculateStandpipeSystem 5.5 66 in
  exists r,
    FireProtection.standpipeFlowRate s = Fin r
    /\ ((FireProtection.standpipePipeSize s = ("4" ++ inchMark)%string
         /\ r <= 1000)
        \/ (FireProtection.standpipePipeSize s = ("6" ++ inchMark)%string
            /\ 1000 < r <= 1250)).
Proof. apply (X29_standpipe_pipe_and_flow 5.5 66). discriminate. Defined.
